(** * swayblur: the blur manager (src/swayblur/blurManager.py)

    A shallow embedding of [blurManager.py]: the wallpaper cache check
    [verifyWallpaperCache], the frame job [genBlurredImage], the constructor
    [BlurManager.__init__], [BlurManager.start] and the event handler
    [BlurManager.handleBlur], together with the parts of the Python library
    they call ([hashlib.md5], [filecmp.cmp] with the table in which it
    remembers its outcomes, [shutil.copy], [multiprocessing.Pool.starmap]
    with its batches).

    Conventions
    - a Python [int] is a [Z];
    - a Python [str] is a Rocq [string], read as the UTF-8 bytes of the
      text, so that [str.encode()] is the list of its bytes;
    - the file system, the state the library keeps for the process, the
      log, the standard output and the calls made to the external
      collaborators are one explicit [World], threaded through a
      state-and-exception monad. *)

From Stdlib Require Import ZArith List Ascii String Lia Bool.
From stdpp Require Import base option gmap strings list fin_maps pretty.

Local Open Scope string_scope.
Local Open Scope Z_scope.

(* ===================================================================== *)
(** * Part I: definitions                                                 *)
(* ===================================================================== *)

(** ** hashlib.md5 (RFC 1321), on bytes represented as [Z] in [0, 256) *)

Module hashlib.

Definition mask32 : Z := 0xffffffff.

Definition add32 (x y : Z) : Z := Z.land (x + y) mask32.

Definition not32 (x : Z) : Z := Z.lxor x mask32.

Definition rotl32 (x : Z) (c : Z) : Z :=
  Z.land (Z.lor (Z.shiftl x c) (Z.shiftr x (32 - c))) mask32.

(** per-round shift amounts *)
Definition S_table : list Z :=
  [7; 12; 17; 22; 7; 12; 17; 22; 7; 12; 17; 22; 7; 12; 17; 22;
   5;  9; 14; 20; 5;  9; 14; 20; 5;  9; 14; 20; 5;  9; 14; 20;
   4; 11; 16; 23; 4; 11; 16; 23; 4; 11; 16; 23; 4; 11; 16; 23;
   6; 10; 15; 21; 6; 10; 15; 21; 6; 10; 15; 21; 6; 10; 15; 21].

(** K[i] = floor(2^32 * abs(sin(i + 1))) *)
Definition K_table : list Z :=
  [0xd76aa478; 0xe8c7b756; 0x242070db; 0xc1bdceee;
   0xf57c0faf; 0x4787c62a; 0xa8304613; 0xfd469501;
   0x698098d8; 0x8b44f7af; 0xffff5bb1; 0x895cd7be;
   0x6b901122; 0xfd987193; 0xa679438e; 0x49b40821;
   0xf61e2562; 0xc040b340; 0x265e5a51; 0xe9b6c7aa;
   0xd62f105d; 0x02441453; 0xd8a1e681; 0xe7d3fbc8;
   0x21e1cde6; 0xc33707d6; 0xf4d50d87; 0x455a14ed;
   0xa9e3e905; 0xfcefa3f8; 0x676f02d9; 0x8d2a4c8a;
   0xfffa3942; 0x8771f681; 0x6d9d6122; 0xfde5380c;
   0xa4beea44; 0x4bdecfa9; 0xf6bb4b60; 0xbebfbc70;
   0x289b7ec6; 0xeaa127fa; 0xd4ef3085; 0x04881d05;
   0xd9d4d039; 0xe6db99e5; 0x1fa27cf8; 0xc4ac5665;
   0xf4292244; 0x432aff97; 0xab9423a7; 0xfc93a039;
   0x655b59c3; 0x8f0ccc92; 0xffeff47d; 0x85845dd1;
   0x6fa87e4f; 0xfe2ce6e0; 0xa3014314; 0x4e0811a1;
   0xf7537e82; 0xbd3af235; 0x2ad7d2bb; 0xeb86d391].

Definition nthZ (l : list Z) (i : Z) : Z := nth (Z.to_nat i) l 0.

(** little-endian bytes of a word, and back *)
Fixpoint le_bytes (n : nat) (x : Z) : list Z :=
  match n with
  | O => []
  | S n' => Z.land x 0xff :: le_bytes n' (Z.shiftr x 8)
  end.

Fixpoint le_word (bs : list Z) : Z :=
  match bs with
  | [] => 0
  | b :: bs' => Z.lor b (Z.shiftl (le_word bs') 8)
  end.

(** the message, a single 1 bit, zeros up to 56 mod 64, the bit length *)
Definition pad (msg : list Z) : list Z :=
  let len := Z.of_nat (List.length msg) in
  let zeros := Z.to_nat ((55 - len) mod 64) in
  msg ++ 0x80 :: repeat 0 zeros ++ le_bytes 8 (Z.land (8 * len) 0xffffffffffffffff).

(** the sixteen 32-bit words of one 64-byte block *)
Fixpoint words (n : nat) (block : list Z) : list Z :=
  match n with
  | O => []
  | S n' => le_word (firstn 4 block) :: words n' (skipn 4 block)
  end.

Record state := State { sA : Z; sB : Z; sC : Z; sD : Z }.

Definition init : state :=
  State 0x67452301 0xefcdab89 0x98badcfe 0x10325476.

Definition round (M : list Z) (st : state) (i : Z) : state :=
  let '(State A B C D) := st in
  let '(F, g) :=
    if i <? 16 then (Z.lor (Z.land B C) (Z.land (not32 B) D), i)
    else if i <? 32 then (Z.lor (Z.land D B) (Z.land (not32 D) C), (5 * i + 1) mod 16)
    else if i <? 48 then (Z.lxor (Z.lxor B C) D, (3 * i + 5) mod 16)
    else (Z.lxor C (Z.lor B (not32 D)), (7 * i) mod 16) in
  let F' := add32 (add32 (add32 F A) (nthZ K_table i)) (nthZ M g) in
  State D (add32 B (rotl32 F' (nthZ S_table i))) B C.

Definition compress (st : state) (block : list Z) : state :=
  let M := words 16 block in
  let st' := fold_left (round M) (map Z.of_nat (seq 0 64)) st in
  State (add32 (sA st) (sA st')) (add32 (sB st) (sB st'))
        (add32 (sC st) (sC st')) (add32 (sD st) (sD st')).

Fixpoint blocks (n : nat) (st : state) (data : list Z) : state :=
  match n with
  | O => st
  | S n' => blocks n' (compress st (firstn 64 data)) (skipn 64 data)
  end.

(** the 16 bytes of the digest *)
Definition md5 (msg : list Z) : list Z :=
  let data := pad msg in
  let st := blocks (List.length data / 64)%nat init data in
  le_bytes 4 (sA st) ++ le_bytes 4 (sB st) ++ le_bytes 4 (sC st) ++ le_bytes 4 (sD st).

Definition hexdigit (d : Z) : ascii :=
  if d <? 10 then ascii_of_N (Z.to_N (48 + d)) else ascii_of_N (Z.to_N (87 + d)).

(** [.hexdigest()]: two lowercase hexadecimal digits per byte *)
Fixpoint hex (bs : list Z) : string :=
  match bs with
  | [] => EmptyString
  | b :: bs' => String (hexdigit (b / 16)) (String (hexdigit (b mod 16)) (hex bs'))
  end.

(** [s.encode()]: the bytes of the text *)
Fixpoint encode (s : string) : list Z :=
  match s with
  | EmptyString => []
  | String a s' => Z.of_N (N_of_ascii a) :: encode s'
  end.

(** [hashlib.md5(s.encode()).hexdigest()] *)
Definition md5_hexdigest (s : string) : string := hex (md5 (encode s)).

End hashlib.

(** ** The animation schedule (blurManager.py, lines 40-42) *)

(** [range(n)]: 0, 1, ..., n-1; empty when n <= 0 *)
Definition range (n : Z) : list Z := map Z.of_nat (seq 0 (Z.to_nat n)).

(** [[(i + 1) * (blurStrength // animationDuration) for i in range(animationDuration)]].
    Python's [//] is floor division, which is [Z.div]; the body is never
    evaluated when the range is empty, so a zero duration divides nothing. *)
Definition animationFrames (blurStrength animationDuration : Z) : list Z :=
  map (fun i => (i + 1) * (blurStrength / animationDuration)) (range animationDuration).

(** strictly increasing lists of integers *)
Fixpoint strictly_increasing (l : list Z) : bool :=
  match l with
  | [] => true
  | x :: l' =>
      match l' with
      | [] => true
      | y :: _ => (x <? y) && strictly_increasing l'
      end
  end.

(** ** The world the program runs in *)

(** A regular file: its bytes and its modification time.  Directories and
    other kinds of file are outside the model: every path of the file
    system names a regular file, and the directory a file is written to
    exists. *)
Record File := mkFile { f_data : string; f_mtime : Z }.

Inductive level := INFO | ERROR.

(** the event kinds of the window manager *)
Inductive i3event :=
| WINDOW_NEW | WINDOW_CLOSE | WINDOW_MOVE | WINDOW_FOCUS | WINDOW_TITLE
| WORKSPACE_FOCUS | WORKSPACE_INIT | WORKSPACE_EMPTY.

Global Instance i3event_eq_dec : EqDecision i3event.
Proof. solve_decision. Defined.

(** a container of the window tree, as far as the handler looks at it:
    its identity and the ['output'] entry of its [ipc_data] *)
Record Con := mkCon { con_id : Z; con_output : option string }.

(** What [get_tree().find_focused()] and then [.workspace()] answer:
    no focused container at all, or the focused container [f] with the
    workspace [f.workspace()] found for it ([None] when it has none). *)
Definition tree := option (Con * option Con).

(** the rendering options handed to the display sink *)
Record Settings := mkSettings { s_filter : string; s_anchor : string; s_scaling_mode : string }.

(** [Output(name, wallpaper, frames, settings)] *)
Record Output := mkOutput {
  o_name : string;
  o_wallpaper : string;
  o_frames : list string;
  o_settings : Settings
}.

Inductive method := m_blur | m_unblur.

(** what the program does to the outside, in the order it does it *)
Inductive event :=
| Connect                                             (* i3ipc.Connection() *)
| Log (lvl : level) (msg : string)                    (* logging.info / logging.error *)
| Print (msg : string)                                (* print *)
| Copy (src dst : string)                             (* shutil.copy, done *)
| Run (input : string) (blurLevel : Z) (output : string)   (* convert, started *)
| Starmap (jobs : list (string * string * Z))         (* pool.starmap called *)
| On (ev : i3event)                                   (* SWAY.on(ev, handleBlur) *)
| Main                                                (* SWAY.main() *)
| GetTree                                             (* SWAY.get_tree() *)
| Invoke (o : Output) (m : method)                    (* o.blur() / o.unblur() *)
| SetBackground (output image : string).              (* the display sink *)

(** The external blur filter: not installed, or a program that, from the
    bytes of its input file (if it exists) and the radius, answers with a
    return code and, possibly, bytes written to its output path. *)
Inductive tool :=
| Missing
| Installed (run : option string -> Z -> Z * option string).

(** The key under which [filecmp] remembers the outcome of a comparison:
    the two paths and the two signatures (size, modification time) the
    files had when they were compared. *)
Definition cmp_key : Type := string * string * (nat * Z) * (nat * Z).

Global Instance cmp_key_eq_dec : EqDecision cmp_key.
Proof. unfold cmp_key. apply _. Defined.

Global Instance cmp_key_countable : Countable cmp_key.
Proof. unfold cmp_key. apply _. Defined.

Record World := mkWorld {
  w_fs : gmap string File;      (* the files *)
  w_now : Z;                    (* the clock that stamps written files *)
  w_convert : tool;             (* the ['convert'] executable *)
  w_cpus : nat;                 (* [os.cpu_count()], 0 when it is [None] *)
  w_cmp_cache : gmap cmp_key bool;   (* [filecmp._cache], empty when the process starts *)
  w_subs : list i3event;        (* event kinds the connection is subscribed to *)
  w_tree : tree;                (* the window tree the connection reports *)
  w_trace : list event          (* what has been done so far *)
}.

Definition set_fs (fs : gmap string File) (w : World) : World :=
  mkWorld fs (w_now w) (w_convert w) (w_cpus w) (w_cmp_cache w) (w_subs w) (w_tree w)
    (w_trace w).

Definition set_cmp_cache (cache : gmap cmp_key bool) (w : World) : World :=
  mkWorld (w_fs w) (w_now w) (w_convert w) (w_cpus w) cache (w_subs w) (w_tree w)
    (w_trace w).

Definition set_subs (subs : list i3event) (w : World) : World :=
  mkWorld (w_fs w) (w_now w) (w_convert w) (w_cpus w) (w_cmp_cache w) subs (w_tree w)
    (w_trace w).

Definition set_tree (t : tree) (w : World) : World :=
  mkWorld (w_fs w) (w_now w) (w_convert w) (w_cpus w) (w_cmp_cache w) (w_subs w) t
    (w_trace w).

Definition add_event (e : event) (w : World) : World :=
  mkWorld (w_fs w) (w_now w) (w_convert w) (w_cpus w) (w_cmp_cache w) (w_subs w) (w_tree w)
    (w_trace w ++ [e]).

Definition add_events (es : list event) (w : World) : World :=
  mkWorld (w_fs w) (w_now w) (w_convert w) (w_cpus w) (w_cmp_cache w) (w_subs w) (w_tree w)
    (w_trace w ++ es).

(** the events of the subscription to the event stream and of its loop *)
Definition is_subscription (e : event) : bool :=
  match e with
  | On _ | Main => true
  | _ => false
  end.

(** the events of the cache and of frame generation *)
Definition is_generation (e : event) : bool :=
  match e with
  | Copy _ _ | Run _ _ _ | Starmap _ => true
  | _ => false
  end.

(** the writes to the display sink *)
Definition is_sink_write (e : event) : bool :=
  match e with
  | SetBackground _ _ => true
  | _ => false
  end.

(** a run of the filter, or the report of a generated image *)
Definition is_filter_success (e : event) : Prop :=
  match e with
  | Run _ _ _ => True
  | Log INFO msg => exists outputPath, msg = "Generated image " ++ outputPath
  | _ => False
  end.

(** ** Exceptions and the monad of effects *)

Inductive exn := FileNotFoundError | SameFileError | KeyError | AttributeError.

Global Instance exn_eq_dec : EqDecision exn.
Proof. solve_decision. Defined.

(** How a call ends.  [Exits] is [SystemExit], raised by [exit()], on its
    way up the process that called it.  [WorkerLost] is the end of a
    [pool.starmap] one of whose workers exited before delivering its
    result: the result never arrives and the call does not return. *)
Inductive outcome (A : Type) :=
| Returns (a : A)
| Raises (e : exn)
| Exits
| WorkerLost.
Arguments Returns {A} a.
Arguments Raises {A} e.
Arguments Exits {A}.
Arguments WorkerLost {A}.

Definition M (A : Type) : Type := World -> outcome A * World.

Definition ret {A} (a : A) : M A := fun w => (Returns a, w).

Definition bind {A B} (m : M A) (k : A -> M B) : M B :=
  fun w =>
    match m w with
    | (Returns a, w') => k a w'
    | (Raises e, w') => (Raises e, w')
    | (Exits, w') => (Exits, w')
    | (WorkerLost, w') => (WorkerLost, w')
    end.

Notation "x <- m ;; k" := (bind m (fun x => k))
  (at level 100, m at next level, right associativity).
Notation "m ;; k" := (bind m (fun _ => k))
  (at level 100, right associativity).

Definition raise {A} (e : exn) : M A := fun w => (Raises e, w).

(** [exit()] *)
Definition exit {A} : M A := fun w => (Exits, w).

Definition emit (e : event) : M unit := fun w => (Returns tt, add_event e w).

(** [try: m  except e: h] *)
Definition try_except {A} (m : M A) (e : exn) (h : M A) : M A :=
  fun w =>
    match m w with
    | (Raises e', w') => if decide (e' = e) then h w' else (Raises e', w')
    | r => r
    end.

Definition print (msg : string) : M unit := emit (Print msg).

Module logging.
Definition info (msg : string) : M unit := emit (Log INFO msg).
Definition error (msg : string) : M unit := emit (Log ERROR msg).
End logging.

(** ** The modules of the repository that are not in the source tree *)

Module paths.

(** The path functions of the [paths] module, whose source is not part
    of the tree: any two functions of these types. *)
Class Paths := {
  cachedImagePath : string -> string -> string;
  framePath : string -> Z -> string
}.

(** Modelled from the spec: [paths.exists] is missing from the source
    tree; the cache check "checks whether a file exists at the cached
    path". *)
Definition exists_ (path : string) : M bool :=
  fun w => (Returns (bool_decide (is_Some (w_fs w !! path))), w).

End paths.
Export paths.

Module output.

(** the display sink, called once for each step of an animation *)
Fixpoint play (name : string) (images : list string) : M unit :=
  match images with
  | [] => ret tt
  | img :: rest => emit (SetBackground name img) ;; play name rest
  end.

(** Modelled from the spec: [Output.blur] is missing from the source
    tree; it "plays the frame sequence forward, from index 0 (least
    blurred) to index N-1 (most blurred), setting each frame as the
    active background on the display sink in order". *)
Definition blur (self : Output) : M unit :=
  emit (Invoke self m_blur) ;; play (o_name self) (o_frames self).

(** Modelled from the spec: [Output.unblur] is missing from the source
    tree; it "plays the same sequence in reverse, from N-1 down to 0". *)
Definition unblur (self : Output) : M unit :=
  emit (Invoke self m_unblur) ;; play (o_name self) (rev (o_frames self)).

End output.

(** ** The Python library *)

Module os.
(** [os.stat(path)]: the file, or [FileNotFoundError] *)
Definition stat (path : string) : M File :=
  fun w =>
    match w_fs w !! path with
    | Some f => (Returns f, w)
    | None => (Raises FileNotFoundError, w)
    end.
End os.

Module filecmp.

(** [_sig(st)]: (type, size, mtime); the type is always "regular" here *)
Definition sig (f : File) : nat * Z := (String.length (f_data f), f_mtime f).

(** [_do_cmp(f1, f2)]: the bytes of both files, read and compared *)
Definition do_cmp (f1 f2 : File) : bool := bool_decide (f_data f1 = f_data f2).

(** [_cache.get(key)] *)
Definition cache_get (key : cmp_key) : M (option bool) :=
  fun w => (Returns (w_cmp_cache w !! key), w).

(** [len(_cache)] *)
Definition cache_len : M nat :=
  fun w => (Returns (size (w_cmp_cache w)), w).

(** [clear_cache()] *)
Definition clear_cache : M unit :=
  fun w => (Returns tt, set_cmp_cache ∅ w).

(** [_cache[key] = outcome] *)
Definition cache_set (key : cmp_key) (outcome : bool) : M unit :=
  fun w => (Returns tt, set_cmp_cache (<[key := outcome]> (w_cmp_cache w)) w).

(** [filecmp.cmp(f1, f2)], with its default [shallow=True]:
<<
    s1 = _sig(os.stat(f1)); s2 = _sig(os.stat(f2))
    if s1[0] != stat.S_IFREG or s2[0] != stat.S_IFREG: return False
    if shallow and s1 == s2: return True
    if s1[1] != s2[1]: return False
    outcome = _cache.get((f1, f2, s1, s2))
    if outcome is None:
        outcome = _do_cmp(f1, f2)
        if len(_cache) > 100: clear_cache()
        _cache[f1, f2, s1, s2] = outcome
    return outcome
>>
    The bytes are read only when the signatures differ and the sizes
    agree, and only when no outcome is remembered for the two paths with
    these signatures: a remembered outcome is returned as it is. *)
Definition cmp (f1 f2 : string) : M bool :=
  s1 <- os.stat f1 ;;
  s2 <- os.stat f2 ;;
  if bool_decide (sig s1 = sig s2) then ret true
  else if negb (bool_decide (fst (sig s1) = fst (sig s2))) then ret false
  else
    remembered <- cache_get (f1, f2, sig s1, sig s2) ;;
    match remembered with
    | Some outcome => ret outcome
    | None =>
        let outcome := do_cmp s1 s2 in
        len <- cache_len ;;
        (if Nat.ltb 100 len then clear_cache else ret tt) ;;
        cache_set (f1, f2, sig s1, sig s2) outcome ;;
        ret outcome
    end.

End filecmp.

Module shutil.
(** [shutil.copy(src, dst)]: the bytes of [src] written to [dst], which
    is created or overwritten and stamped with the time of the copy *)
Definition copy (src dst : string) : M unit :=
  fun w =>
    match w_fs w !! src with
    | None => (Raises FileNotFoundError, w)
    | Some f =>
        if bool_decide (src = dst) then (Raises SameFileError, w)
        else (Returns tt,
              add_event (Copy src dst)
                (set_fs (<[dst := mkFile (f_data f) (w_now w)]> (w_fs w)) w))
    end.
End shutil.

Module subprocess.
(** [subprocess.run(['convert', inputPath, '-blur', '0x%d' % blurLevel, outputPath])]:
    [FileNotFoundError] when there is no such executable; otherwise the
    filter runs and its return code is the result (no [check=True]). *)
Definition run_convert (inputPath : string) (blurLevel : Z) (outputPath : string) : M Z :=
  fun w =>
    match w_convert w with
    | Missing => (Raises FileNotFoundError, w)
    | Installed run =>
        let '(code, written) := run (f_data <$> (w_fs w !! inputPath)) blurLevel in
        let fs' := match written with
                   | Some bytes => <[outputPath := mkFile bytes (w_now w)]> (w_fs w)
                   | None => w_fs w
                   end in
        (Returns code, add_event (Run inputPath blurLevel outputPath) (set_fs fs' w))
    end.
End subprocess.

Module multiprocessing.

(** how the outcomes of one job and of the jobs after it combine *)
Definition join (r rs : outcome unit) : outcome unit :=
  match r with
  | Returns _ => rs
  | Raises e => match rs with WorkerLost => WorkerLost | _ => Raises e end
  | Exits | WorkerLost => WorkerLost
  end.

(** [Pool()]: [os.cpu_count() or 1] worker processes *)
Definition processes : M nat :=
  fun w => (Returns (match w_cpus w with O => 1%nat | n => n end), w).

(** the size of a batch:
<<
    chunksize, extra = divmod(len(iterable), len(self._pool) * 4)
    if extra: chunksize += 1
>> *)
Definition chunksize (len workers : nat) : nat :=
  match Nat.modulo len (workers * 4) with
  | O => Nat.div len (workers * 4)
  | _ => S (Nat.div len (workers * 4))
  end.

(** [Pool._get_tasks(func, it, size)]: the jobs, [size] at a time, until
    a batch comes out empty; [fuel] bounds the number of batches, and the
    number of jobs is enough of it *)
Fixpoint get_tasks {A} (fuel size : nat) (it : list A) : list (list A) :=
  match fuel with
  | O => []
  | S fuel' =>
      match take size it with
      | [] => []
      | x => x :: get_tasks fuel' size (drop size it)
      end
  end.

(** one batch in one worker, [list(itertools.starmap(func, batch))]: the
    jobs one after the other; a job that raises or calls [exit()] ends
    the batch, whose remaining jobs are not run *)
Fixpoint run_batch {A} (f : A -> M unit) (batch : list A) : M unit :=
  match batch with
  | [] => ret tt
  | j :: rest => f j ;; run_batch f rest
  end.

(** the batches: a batch whose worker has exited is lost, and the pool
    goes on with the next batch in a new worker *)
Fixpoint run_batches {A} (f : A -> M unit) (batches : list (list A)) : M unit :=
  match batches with
  | [] => ret tt
  | batch :: rest =>
      fun w =>
        let '(r, w1) := run_batch f batch w in
        let '(rs, w2) := run_batches f rest w1 in
        (join r rs, w2)
  end.

Definition run_jobs {A} (f : A -> M unit) (jobs : list A) : M unit :=
  workers <- processes ;;
  run_batches f
    (get_tasks (List.length jobs) (chunksize (List.length jobs) workers) jobs).

(** [with multiprocessing.Pool() as pool: pool.starmap(f, jobs)].
    The jobs are handed to the workers in batches; the jobs write to
    files of their own and the call waits for every batch, so the batches
    are run here one after the other, in the order of the list.  A job
    that raises makes the call raise once all batches are done; a job
    that calls [exit()] ends its worker, the rest of its batch is never
    run, and the call never gets the result of that batch. *)
Definition Pool_starmap {A} (f : A -> M unit) (jobs : list A) : M unit :=
  run_jobs f jobs.

End multiprocessing.

Arguments multiprocessing.run_jobs : simpl never.

(** ** blurManager.py *)

(** the diagnostic of line 17 *)
Definition imagemagick_message : string :=
  "Could not create blurred version of wallpaper, ensure imagemagick is installed".

(** lines 13-20 *)
Definition genBlurredImage (inputPath outputPath : string) (blurLevel : Z) : M unit :=
  try_except
    (subprocess.run_convert inputPath blurLevel outputPath ;; ret tt)
    FileNotFoundError
    (logging.error imagemagick_message ;; exit) ;;
  logging.info ("Generated image " ++ outputPath).

(** lines 23-32 *)
Definition verifyWallpaperCache `{Paths} (wallpaperPath wallpaperHash : string) : M bool :=
  let cachedWallpaper := cachedImagePath wallpaperPath wallpaperHash in
  present <- paths.exists_ cachedWallpaper ;;
  same <- (if present then filecmp.cmp wallpaperPath cachedWallpaper else ret false) ;;
  if same then
    logging.info ("wallpaper " ++ wallpaperPath ++ " is cached as " ++ cachedWallpaper) ;;
    ret true
  else
    logging.info ("wallpaper " ++ wallpaperPath ++ " added to the cache as " ++ cachedWallpaper) ;;
    shutil.copy wallpaperPath cachedWallpaper ;;
    ret false.

(** one entry of [outputConfigs]; ['image'] is a path, or is unset *)
Record OutputCfg := mkOutputCfg {
  c_image : option string;
  c_filter : string;
  c_anchor : string;
  c_scaling_mode : string
}.

(** [not outputCfg['image']]: [None] and the empty string are falsy *)
Definition image_of (outputCfg : OutputCfg) : option string :=
  match c_image outputCfg with
  | Some "" => None
  | other => other
  end.

Module BlurManager.

(** the manager: [self.outputs] ([self.SWAY] is the connection of the world) *)
Record t := mk { outputs : gmap string Output }.

(** line 52 *)
Definition imageHash (image : string) : string := hashlib.md5_hexdigest image.

(** the jobs of lines 71-74, as [starmap] applies [genBlurredImage] to them *)
Definition jobs `{Paths} (cachedImage hash : string) (animationFrames : list Z)
  : list (string * string * Z) :=
  map (fun frame => (cachedImage, framePath hash frame, frame)) animationFrames.

Definition run_job (job : string * string * Z) : M unit :=
  let '(inputPath, outputPath, blurLevel) := job in
  genBlurredImage inputPath outputPath blurLevel.

(** lines 46-77: the body of the loop over [outputConfigs] *)
Definition configure `{Paths} (animationFrames : list Z)
    (outs : gmap string Output) (name : string) (outputCfg : OutputCfg)
  : M (gmap string Output) :=
  match image_of outputCfg with
  | None =>
      logging.info ("Output " ++ name ++ " has no wallpaper set") ;;
      ret outs
  | Some image =>
      let hash := imageHash image in
      let cachedImage := cachedImagePath image hash in
      let outs' :=
        <[name := mkOutput name cachedImage
                    (map (framePath hash) animationFrames)
                    (mkSettings (c_filter outputCfg) (c_anchor outputCfg)
                                (c_scaling_mode outputCfg))]> outs in
      cached <- verifyWallpaperCache image hash ;;
      if negb cached then
        print "Generating blurred wallpaper frames" ;;
        print "This may take a minute..." ;;
        emit (Starmap (jobs cachedImage hash animationFrames)) ;;
        multiprocessing.Pool_starmap run_job (jobs cachedImage hash animationFrames) ;;
        print ("Blurred wallpaper generated for " ++ name) ;;
        ret outs'
      else
        print ("Blurred wallpaper exists for " ++ name) ;;
        ret outs'
  end.

(** [for name in outputConfigs: ...], in the order of the dictionary *)
Fixpoint configure_all `{Paths} (animationFrames : list Z)
    (outputConfigs : list (string * OutputCfg)) (outs : gmap string Output)
  : M (gmap string Output) :=
  match outputConfigs with
  | [] => ret outs
  | (name, outputCfg) :: rest =>
      outs' <- configure animationFrames outs name outputCfg ;;
      configure_all animationFrames rest outs'
  end.

(** lines 36-77 *)
Definition __init__ `{Paths} (outputConfigs : list (string * OutputCfg))
    (blurStrength animationDuration : Z) : M t :=
  emit Connect ;;
  outs <- configure_all (animationFrames blurStrength animationDuration) outputConfigs ∅ ;;
  ret (mk outs).

(** lines 89-101 *)
Definition handleBlur (self : t) : M unit :=
  emit GetTree ;;
  focused <- (fun w => (Returns (w_tree w), w)) ;;
  match focused with
  | None => raise AttributeError            (* None.workspace() *)
  | Some (focusedWindow, None) => raise AttributeError     (* None.ipc_data *)
  | Some (focusedWindow, Some focusedWorkspace) =>
      match con_output focusedWorkspace with
      | None => raise KeyError              (* ipc_data['output'], outside the try *)
      | Some focusedOutputName =>
          try_except
            (match outputs self !! focusedOutputName with
             | None => raise KeyError
             | Some out =>
                 if con_id focusedWindow =? con_id focusedWorkspace
                 then output.unblur out
                 else output.blur out
             end)
            KeyError
            (logging.info ("Output " ++ focusedOutputName ++ " is not an Output object"))
      end
  end.

(** [SWAY.on(ev, handleBlur)] *)
Definition on (ev : i3event) : M unit :=
  emit (On ev) ;;
  fun w => (Returns tt, set_subs (w_subs w ++ [ev]) w).

(** [SWAY.main()]: the events come one at a time, each with the tree the
    window manager has at that time; an event of a subscribed kind is
    handed to the handler, which runs to its end before the next event is
    read; an exception of the handler ends the loop; the loop returns
    when the connection closes. *)
Fixpoint listen (self : t) (stream : list (i3event * tree)) : M unit :=
  match stream with
  | [] => ret tt
  | (ev, tr) :: rest =>
      subscribed <- (fun w => (Returns (bool_decide (ev ∈ w_subs w)), set_tree tr w)) ;;
      (if subscribed : bool then handleBlur self else ret tt) ;;
      listen self rest
  end.

(** lines 80-86 *)
Definition start (self : t) (stream : list (i3event * tree)) : M unit :=
  print "Listening..." ;;
  on WINDOW_NEW ;;
  on WINDOW_CLOSE ;;
  on WINDOW_MOVE ;;
  on WORKSPACE_FOCUS ;;
  emit Main ;;
  listen self stream.

(** the manager is built, then started: [start] is a method of the
    object that [__init__] has finished building *)
Definition startup `{Paths} (outputConfigs : list (string * OutputCfg))
    (blurStrength animationDuration : Z) (stream : list (i3event * tree)) : M unit :=
  self <- __init__ outputConfigs blurStrength animationDuration ;;
  start self stream.

End BlurManager.

(** ** A reference instance of the missing [paths] module *)

(** Modelled from the spec: the bodies of [paths.cachedImagePath] and
    [paths.framePath] are missing from the source tree; the cached copy is
    at a "canonical cached copy path keyed by WallpaperIdentity", and a
    frame at a "deterministic path, stable across runs, collision-free
    across different (identity, blurLevel) pairs". *)
Definition ref_paths : Paths := {|
  cachedImagePath := fun _ hash => "/cache/" ++ hash;
  framePath := fun hash frame => "/cache/" ++ hash ++ "-" ++ pretty.pretty frame
|}.

(** ** The outputs a configuration asks for *)

(** the [Output] of a configured wallpaper, from the configuration alone *)
Definition output_of `{Paths} (animationFrames : list Z) (name image : string)
    (outputCfg : OutputCfg) : Output :=
  mkOutput name
    (cachedImagePath image (BlurManager.imageHash image))
    (map (framePath (BlurManager.imageHash image)) animationFrames)
    (mkSettings (c_filter outputCfg) (c_anchor outputCfg) (c_scaling_mode outputCfg)).

Fixpoint configured_outputs `{Paths} (animationFrames : list Z)
    (outputConfigs : list (string * OutputCfg)) (outs : gmap string Output)
  : gmap string Output :=
  match outputConfigs with
  | [] => outs
  | (name, outputCfg) :: rest =>
      configured_outputs animationFrames rest
        (match image_of outputCfg with
         | None => outs
         | Some image => <[name := output_of animationFrames name image outputCfg]> outs
         end)
  end.

(** ** Properties of runs *)

(** an action that touches nothing but the files, the table of [filecmp]
    and the trace, to which it adds events that all satisfy [ok] *)
Definition acts {A} (ok : event -> Prop) (m : M A) : Prop :=
  forall w, exists es,
    snd (m w)
    = add_events es (set_cmp_cache (w_cmp_cache (snd (m w))) (set_fs (w_fs (snd (m w))) w))
    /\ Forall ok es.

(** an action that adds to the trace events that all satisfy [ok] *)
Definition emits {A} (ok : event -> Prop) (m : M A) : Prop :=
  forall w, exists es,
    w_trace (snd (m w)) = (w_trace w ++ es)%list /\ Forall ok es.

(** no subscription, no event loop *)
Definition setup_event (e : event) : Prop := is_subscription e = false.

(** no subscription, and no sign of a filter that ran *)
Definition unfiltered_event (e : event) : Prop :=
  is_subscription e = false /\ ~ is_filter_success e.

(** what the cache check does: it logs at [INFO] and it copies *)
Definition cache_event (e : event) : Prop :=
  match e with
  | Log INFO msg => exists rest, msg = "wallpaper " ++ rest
  | Copy _ _ => True
  | _ => False
  end.

(** no copy, no filter run, no pool *)
Definition listen_event (e : event) : Prop := is_generation e = false.

(** What has been done for an output with a wallpaper when its turn in the
    constructor is over: its wallpaper was found cached, or it was copied
    to the cache, the pool was given the jobs of all its frames, and the
    filter has run and reported for each of them; and the line that says so
    has been printed. *)
Definition prepared `{Paths} (frames : list Z) (name image : string) (es : list event) : Prop :=
  let hash := BlurManager.imageHash image in
  let cached := cachedImagePath image hash in
  (In (Log INFO ("wallpaper " ++ image ++ " is cached as " ++ cached)) es
   /\ In (Print ("Blurred wallpaper exists for " ++ name)) es)
  \/ (In (Copy image cached) es
      /\ In (Starmap (BlurManager.jobs cached hash frames)) es
      /\ (forall frame, In frame frames ->
            In (Run cached frame (framePath hash frame)) es
            /\ In (Log INFO ("Generated image " ++ framePath hash frame)) es)
      /\ In (Print ("Blurred wallpaper generated for " ++ name)) es).

(** ** The event phase *)

(** the kinds of event [start] subscribes the handler to (lines 82-85) *)
Definition handled_kinds : list i3event :=
  [WINDOW_NEW; WINDOW_CLOSE; WINDOW_MOVE; WORKSPACE_FOCUS].

(** a tree in which the handler finds a focused container, its workspace
    and the name of the output of that workspace *)
Definition resolves (t : tree) : Prop :=
  exists focusedWindow focusedWorkspace name,
    t = Some (focusedWindow, Some focusedWorkspace)
    /\ con_output focusedWorkspace = Some name.

(** the exception of the handler on a tree that does not resolve *)
Definition tree_error (t : tree) : exn :=
  match t with
  | Some (_, Some _) => KeyError
  | _ => AttributeError
  end.

(** two worlds that differ at most in the tree last reported *)
Definition same_but_tree (w w' : World) : Prop := set_tree None w = set_tree None w'.

(** ** Files and filters *)

(** an action that removes no file: a path that names a file before it
    names one after it *)
Definition keeps_files {A} (m : M A) : Prop :=
  forall w path, is_Some (w_fs w !! path) -> is_Some (w_fs (snd (m w)) !! path).

(** a filter that writes its output whenever its input file exists *)
Definition writes_its_output (run : option string -> Z -> Z * option string) : Prop :=
  forall bytes blurLevel, snd (run (Some bytes) blurLevel) <> None.

(** the digits of a lowercase hexadecimal number *)
Definition is_hex_digit (a : ascii) : bool :=
  let n := N_of_ascii a in
  ((48 <=? n)%N && (n <=? 57)%N) || ((97 <=? n)%N && (n <=? 102)%N).

Fixpoint all_hex (s : string) : bool :=
  match s with
  | EmptyString => true
  | String a s' => is_hex_digit a && all_hex s'
  end.

(** what the handler adds to the trace for a manager and a tree *)
Definition handler_events (self : BlurManager.t) (t : tree) : list event :=
  GetTree ::
  match t with
  | Some (focusedWindow, Some focusedWorkspace) =>
      match con_output focusedWorkspace with
      | Some name =>
          match BlurManager.outputs self !! name with
          | Some o =>
              if con_id focusedWindow =? con_id focusedWorkspace
              then Invoke o m_unblur :: map (SetBackground (o_name o)) (rev (o_frames o))
              else Invoke o m_blur :: map (SetBackground (o_name o)) (o_frames o)
          | None => [Log INFO ("Output " ++ name ++ " is not an Output object")]
          end
      | None => []
      end
  | _ => []
  end.

(** whether the handler finds, in a tree, the output of the focused
    workspace: [resolves], as a test *)
Definition resolvesb (t : tree) : bool :=
  match t with
  | Some (_, Some focusedWorkspace) =>
      match con_output focusedWorkspace with
      | Some _ => true
      | None => false
      end
  | _ => false
  end.

(** of the trees of the events handed to the handler one after the other,
    those the handler gets to see: all of them up to the first that does
    not resolve, on which it raises *)
Fixpoint handled_trees (trees : list tree) : list tree :=
  match trees with
  | [] => []
  | t :: rest => if resolvesb t then t :: handled_trees rest else [t]
  end.

(** and how the loop ends on them *)
Fixpoint loop_outcome (trees : list tree) : outcome unit :=
  match trees with
  | [] => Returns tt
  | t :: rest => if resolvesb t then loop_outcome rest else Raises (tree_error t)
  end.

(** ** The table of [filecmp] *)

(** what [filecmp.cmp] answers for the files [a] at [f1] and [b] at [f2]
    with a given table, and the table it leaves (lemma
    [filecmp_cmp_files]) *)
Definition cmp_files (f1 f2 : string) (a b : File) (cache : gmap cmp_key bool)
  : bool * gmap cmp_key bool :=
  if bool_decide (filecmp.sig a = filecmp.sig b) then (true, cache)
  else if negb (bool_decide (fst (filecmp.sig a) = fst (filecmp.sig b))) then (false, cache)
  else
    match cache !! (f1, f2, filecmp.sig a, filecmp.sig b) with
    | Some outcome => (outcome, cache)
    | None =>
        (filecmp.do_cmp a b,
         <[(f1, f2, filecmp.sig a, filecmp.sig b) := filecmp.do_cmp a b]>
           (if Nat.ltb 100 (size cache) then ∅ else cache))
    end.




(** the worlds the cache check leaves with the source [f] in place: after
    a hit, and after a miss, with what [filecmp] then remembers *)
Definition after_hit `{Paths} (W h : string) (cache : gmap cmp_key bool) (w : World) : World :=
  add_event (Log INFO ("wallpaper " ++ W ++ " is cached as " ++ cachedImagePath W h))
    (set_cmp_cache cache w).

Definition after_miss `{Paths} (W h : string) (f : File) (cache : gmap cmp_key bool)
    (w : World) : World :=
  add_event (Copy W (cachedImagePath W h))
    (set_fs (<[cachedImagePath W h := mkFile (f_data f) (w_now w)]> (w_fs w))
       (add_event
          (Log INFO ("wallpaper " ++ W ++ " added to the cache as " ++ cachedImagePath W h))
          (set_cmp_cache cache w))).

(** ** The cache on disk *)




(** ** Sample inputs *)

(** a world at time 200 with the given files and filter, nothing done yet *)
Definition sample_world (fs : gmap string File) (conv : tool) : World :=
  mkWorld fs 200 conv 4 ∅ [] None [].

Definition wall : string := "/home/u/wall.png".
Definition wall_hash : string := Eval vm_compute in BlurManager.imageHash wall.
Definition wall_cached : string := Eval vm_compute in @cachedImagePath ref_paths wall wall_hash.

(** the wallpaper alone: nothing cached yet *)
Definition fs_fresh : gmap string File := {[ wall := mkFile "AAAA" 100 ]}.

(** the wallpaper and its cached copy, byte for byte *)
Definition fs_cached : gmap string File :=
  <[ wall_cached := mkFile "AAAA" 150 ]> fs_fresh.

(** the wallpaper replaced by other bytes of the same size and with the
    modification time of the cached copy *)
Definition fs_replaced : gmap string File :=
  <[ wall := mkFile "BBBB" 150 ]> fs_cached.


(** an output with two frames, and a manager that knows this output only *)
Definition eDP : Output :=
  mkOutput "eDP-1" "/cache/w" ["/cache/f1"; "/cache/f2"] (mkSettings "nearest" "center" "fill").

Definition sample_manager : BlurManager.t := BlurManager.mk {[ "eDP-1" := eDP ]}.

(** workspace 7 on eDP-1, a window 12 on it, workspace 9 on another monitor *)
Definition ws7 : Con := mkCon 7 (Some "eDP-1").
Definition win12 : Con := mkCon 12 None.
Definition ws9 : Con := mkCon 9 (Some "HDMI-A-1").

(** the focus on the empty workspace 7; on window 12 of workspace 7; on the
    empty workspace 9; nowhere *)
Definition tree_empty : tree := Some (ws7, Some ws7).
Definition tree_window : tree := Some (win12, Some ws7).
Definition tree_other_monitor : tree := Some (ws9, Some ws9).
Definition tree_no_focus : tree := None.

(** a world in which [start] has subscribed and nothing else has happened *)
Definition listening_world (t : tree) : World :=
  mkWorld ∅ 0 Missing 4 ∅ [WINDOW_NEW; WINDOW_CLOSE; WINDOW_MOVE; WORKSPACE_FOCUS] t [].

(** a filter that works, and one that fails on every run and writes nothing *)
Definition blur_tool : tool :=
  Installed (fun input blurLevel =>
               match input with
               | Some bytes => (0, Some ("blurred:" ++ bytes))
               | None => (1, None)
               end).

Definition failing_tool : tool := Installed (fun _ _ => (1, None)).

(** one monitor with the wallpaper, one without *)
Definition sample_configs : list (string * OutputCfg) :=
  [("eDP-1", mkOutputCfg (Some wall) "nearest" "center" "fill");
   ("HDMI-A-1", mkOutputCfg None "" "" "")].

(** two different texts with the same MD5 *)
Definition collide_a : string :=
  "TEXTCOLLBYfGiJUETHQ4hAcKSMd5zYpgqf1YRDhkmxHkhPWptrkoyz28wnI9V0aHeAuaKnak".
Definition collide_b : string :=
  "TEXTCOLLBYfGiJUETHQ4hEcKSMd5zYpgqf1YRDhkmxHkhPWptrkoyz28wnI9V0aHeAuaKnak".

(* ===================================================================== *)
(** * Part II: theorems                                                   *)
(* ===================================================================== *)

Example md5_empty : hashlib.md5_hexdigest "" = "d41d8cd98f00b204e9800998ecf8427e".
Proof. vm_compute. reflexivity. Qed.

Example md5_abc : hashlib.md5_hexdigest "abc" = "900150983cd24fb0d6963f7d28e17f72".
Proof. vm_compute. reflexivity. Qed.

Example md5_collision :
  hashlib.md5_hexdigest collide_a = "faad49866e9498fc1719f5289e7a0269"
  /\ hashlib.md5_hexdigest collide_b = "faad49866e9498fc1719f5289e7a0269".
Proof. vm_compute. split; reflexivity. Qed.

Example animationFrames_20_4 : animationFrames 20 4 = [5; 10; 15; 20].
Proof. reflexivity. Qed.

(** ** The animation schedule *)

Lemma range_pos (n : Z) : 0 < n -> range n = (range (n - 1) ++ [n - 1])%list.
Proof.
  intros Hn. unfold range.
  replace (Z.to_nat n) with (S (Z.to_nat (n - 1))) by lia.
  rewrite seq_S, List.map_app. simpl. repeat f_equal. lia.
Qed.

Lemma length_range (n : Z) : 0 <= n -> Z.of_nat (List.length (range n)) = n.
Proof. intros Hn. unfold range. rewrite List.length_map, List.length_seq. lia. Qed.

Lemma range_lookup (n i : Z) :
  0 <= i < n -> nth_error (range n) (Z.to_nat i) = Some i.
Proof.
  intros Hi. unfold range.
  rewrite nth_error_map, nth_error_seq.
  destruct (Nat.ltb_spec (Z.to_nat i) (Z.to_nat n)); [simpl; f_equal; lia | lia].
Qed.

(** multiples of a step [q], from the [a]-th on: increasing iff [q] is positive *)
Lemma multiples_increasing (q : Z) (n a : nat) :
  strictly_increasing (map (fun i => (i + 1) * q) (map Z.of_nat (seq a (S (S n))))) = true
  <-> 0 < q.
Proof.
  revert a. induction n as [|n IH]; intros a.
  - simpl. rewrite andb_true_r, Z.ltb_lt. nia.
  - change (seq a (S (S (S n)))) with (a :: seq (S a) (S (S n))).
    rewrite !List.map_cons.
    remember (S n) as m. simpl. subst m.
    change (S a :: seq (S (S a)) (S n)) with (seq (S a) (S (S n))) in *.
    specialize (IH (S a)).
    simpl in IH |- *. rewrite andb_true_iff, Z.ltb_lt.
    simpl in IH. rewrite IH. nia.
Qed.

Lemma animationFrames_increasing (s n : Z) :
  0 < n ->
  strictly_increasing (animationFrames s n) = true <-> n = 1 \/ 0 < s / n.
Proof.
  intros Hn. unfold animationFrames, range.
  destruct (Z.to_nat n) as [|[|k]] eqn:E; [lia | |].
  - simpl. split; [intros _; left; lia | reflexivity].
  - rewrite multiples_increasing. split; [tauto | intros [?|?]; [lia | assumption]].
Qed.

(** C2, as amended: for positive [maxStrength] and [N] the schedule is
    [(i+1) * floor(maxStrength / N)] for i = 0..N-1, has length exactly [N]
    and its last element is at most [maxStrength]; it is strictly
    increasing exactly when [N = 1] or [N <= maxStrength] (otherwise the
    step is 0 and all its elements are 0); for 20 and 4 it is
    [5; 10; 15; 20]. *)
Theorem animationFrames_schedule (maxStrength N : Z) :
  0 < maxStrength -> 0 < N ->
  (forall i, 0 <= i < N ->
     nth_error (animationFrames maxStrength N) (Z.to_nat i)
     = Some ((i + 1) * (maxStrength / N)))
  /\ Z.of_nat (List.length (animationFrames maxStrength N)) = N
  /\ List.last (animationFrames maxStrength N) 0 = N * (maxStrength / N)
  /\ List.last (animationFrames maxStrength N) 0 <= maxStrength
  /\ (strictly_increasing (animationFrames maxStrength N) = true
      <-> N = 1 \/ N <= maxStrength)
  /\ (maxStrength < N -> Forall (fun x => x = 0) (animationFrames maxStrength N))
  /\ animationFrames 20 4 = [5; 10; 15; 20].
Proof.
  intros Hs Hn.
  assert (Hlast : List.last (animationFrames maxStrength N) 0 = N * (maxStrength / N)).
  { unfold animationFrames. rewrite (range_pos N Hn), List.map_app. simpl.
    rewrite last_last. f_equal. lia. }
  repeat split.
  - intros i Hi. unfold animationFrames.
    rewrite nth_error_map, (range_lookup N i Hi). reflexivity.
  - unfold animationFrames. rewrite List.length_map. apply length_range. lia.
  - exact Hlast.
  - rewrite Hlast. apply Z.mul_div_le. lia.
  - intros H. apply animationFrames_increasing in H; [|exact Hn].
    destruct H as [?|H]; [left; assumption | right].
    destruct (Z.le_gt_cases N maxStrength) as [?|Hlt]; [assumption|].
    rewrite Z.div_small in H by lia. lia.
  - intros H. apply animationFrames_increasing; [exact Hn|].
    destruct H as [?|H]; [left; assumption | right].
    apply Z.div_str_pos. lia.
  - intros Hlt. unfold animationFrames.
    rewrite Z.div_small by lia. apply Forall_map, Forall_forall.
    intros x _. simpl. lia.
Qed.

Lemma animationFrames_schedule_witness :
  nth_error (animationFrames 20 4) 2 = Some 15
  /\ strictly_increasing (animationFrames 20 4) = true.
Proof.
  destruct (animationFrames_schedule 20 4 ltac:(lia) ltac:(lia))
    as (Hnth & _ & _ & _ & Hinc & _).
  split.
  - exact (Hnth 2 ltac:(lia)).
  - apply Hinc. right. lia.
Defined.

(** C2 as stated fails: strength 1 over 2 steps gives the schedule
    [0; 0], which is not strictly increasing. *)
Lemma animationFrames_not_increasing :
  0 < 1 /\ 0 < 2 /\ animationFrames 1 2 = [0; 0]
  /\ strictly_increasing (animationFrames 1 2) = false.
Proof. repeat split; reflexivity. Qed.

(** ** The cache check *)

(** a run, from how it ends *)
Lemma run_eq {A} (m : outcome A * World) (r : outcome A) : fst m = r -> m = (r, snd m).
Proof. intros <-. destruct m; reflexivity. Qed.

Lemma set_cmp_cache_same (w : World) : set_cmp_cache (w_cmp_cache w) w = w.
Proof. destruct w. reflexivity. Qed.

(** what [filecmp.cmp] answers for two files that exist, and what it
    remembers *)
Lemma filecmp_cmp_files (a b : string) (f g : File) (w : World) :
  w_fs w !! a = Some f ->
  w_fs w !! b = Some g ->
  filecmp.cmp a b w
  = (Returns (fst (cmp_files a b f g (w_cmp_cache w))),
     set_cmp_cache (snd (cmp_files a b f g (w_cmp_cache w))) w).
Proof.
  intros Ha Hb. unfold filecmp.cmp, os.stat, bind, cmp_files. rewrite Ha, Hb.
  destruct (bool_decide (filecmp.sig f = filecmp.sig g)).
  { simpl. rewrite set_cmp_cache_same. reflexivity. }
  destruct (bool_decide (fst (filecmp.sig f) = fst (filecmp.sig g))); simpl.
  2: { rewrite set_cmp_cache_same. reflexivity. }
  unfold filecmp.cache_get.
  destruct (w_cmp_cache w !! _) as [outcome|]; simpl.
  { rewrite set_cmp_cache_same. reflexivity. }
  unfold filecmp.cache_len, filecmp.clear_cache, filecmp.cache_set, ret.
  destruct (Nat.ltb 100 (size (w_cmp_cache w))); reflexivity.
Qed.


(** equal signatures are never looked up *)
Lemma cmp_files_shallow (a b : string) (f g : File) (cache : gmap cmp_key bool) :
  filecmp.sig f = filecmp.sig g -> cmp_files a b f g cache = (true, cache).
Proof. intros Hs. unfold cmp_files. rewrite (bool_decide_true _ Hs). reflexivity. Qed.



Lemma shutil_copy_file (src dst : string) (f : File) (w : World) :
  w_fs w !! src = Some f ->
  src <> dst ->
  shutil.copy src dst w
  = (Returns tt,
     add_event (Copy src dst) (set_fs (<[dst := mkFile (f_data f) (w_now w)]> (w_fs w)) w)).
Proof.
  intros Hs Hne. unfold shutil.copy. rewrite Hs.
  rewrite bool_decide_false by exact Hne. reflexivity.
Qed.

Section cache.
Context `{P : Paths}.

(** the check with the source in place, by what is at the cached path *)
Lemma verifyWallpaperCache_run (W h : string) (w : World) (f : File) :
  w_fs w !! W = Some f ->
  verifyWallpaperCache W h w
  = match w_fs w !! cachedImagePath W h with
    | Some g =>
        if fst (cmp_files W (cachedImagePath W h) f g (w_cmp_cache w)) then
          (Returns true,
           after_hit W h (snd (cmp_files W (cachedImagePath W h) f g (w_cmp_cache w))) w)
        else
          (Returns false,
           after_miss W h f (snd (cmp_files W (cachedImagePath W h) f g (w_cmp_cache w))) w)
    | None => (Returns false, after_miss W h f (w_cmp_cache w) w)
    end.
Proof.
  intros HW. unfold verifyWallpaperCache, bind, paths.exists_.
  destruct (w_fs w !! cachedImagePath W h) as [g|] eqn:HC.
  - rewrite bool_decide_true by eauto.
    rewrite (filecmp_cmp_files _ _ f g) by assumption.
    destruct (fst (cmp_files W (cachedImagePath W h) f g (w_cmp_cache w))) eqn:E.
    + reflexivity.
    + assert (Hne : W <> cachedImagePath W h).
      { intros Heq. rewrite <- Heq in HC, E. rewrite HW in HC. injection HC as <-.
        rewrite cmp_files_shallow in E by reflexivity. discriminate. }
      unfold ret, logging.info, emit.
      rewrite (shutil_copy_file _ _ f) by assumption. reflexivity.
  - assert (Hne : W <> cachedImagePath W h) by congruence.
    rewrite bool_decide_false by (intros [? ?]; discriminate).
    unfold ret, logging.info, emit.
    rewrite (shutil_copy_file _ _ f) by assumption.
    unfold after_miss. rewrite set_cmp_cache_same. reflexivity.
Qed.

(** the same signature, whatever the bytes and whatever is remembered: a
    hit, and nothing is read, written or remembered *)
Lemma verifyWallpaperCache_shallow (W h : string) (w : World) (f g : File) :
  w_fs w !! W = Some f ->
  w_fs w !! cachedImagePath W h = Some g ->
  filecmp.sig f = filecmp.sig g ->
  verifyWallpaperCache W h w
  = (Returns true,
     add_event (Log INFO ("wallpaper " ++ W ++ " is cached as " ++ cachedImagePath W h)) w).
Proof.
  intros HW HC Hsig. rewrite (verifyWallpaperCache_run W h w f HW), HC.
  rewrite cmp_files_shallow by exact Hsig. simpl.
  unfold after_hit. rewrite set_cmp_cache_same. reflexivity.
Qed.



(** with the source in place the check returns, and a [false] answer comes
    with the copy *)
Lemma verifyWallpaperCache_returns (W h : string) (w : World) (f : File) :
  w_fs w !! W = Some f ->
  (exists cache,
     verifyWallpaperCache W h w = (Returns true, after_hit W h cache w)
     /\ is_Some (w_fs w !! cachedImagePath W h))
  \/ exists cache, verifyWallpaperCache W h w = (Returns false, after_miss W h f cache w).
Proof.
  intros HW. rewrite (verifyWallpaperCache_run W h w f HW).
  destruct (w_fs w !! cachedImagePath W h) as [g|] eqn:HC; [|eauto].
  destruct (fst (cmp_files _ _ f g _)); eauto.
Qed.

(** without the source the check does not return: it raises *)
Lemma verifyWallpaperCache_no_source (W h : string) (w : World) :
  w_fs w !! W = None ->
  exists w', verifyWallpaperCache W h w = (Raises FileNotFoundError, w')
             /\ w_fs w' = w_fs w /\ w_cmp_cache w' = w_cmp_cache w.
Proof.
  intros HW. unfold verifyWallpaperCache, bind, paths.exists_.
  destruct (bool_decide _).
  - unfold filecmp.cmp, os.stat, bind. rewrite HW. eauto.
  - unfold ret, logging.info, emit, shutil.copy. simpl. rewrite HW. eauto.
Qed.

(** a check that answers true has done nothing but log it, and remember *)
Lemma verifyWallpaperCache_true (W h : string) (w wv : World) :
  verifyWallpaperCache W h w = (Returns true, wv) ->
  exists cache, wv = after_hit W h cache w.
Proof.
  intros Htrue. destruct (w_fs w !! W) as [f|] eqn:HW.
  - destruct (verifyWallpaperCache_returns W h w f HW) as [(cache & E & _)|(cache & E)];
      rewrite E in Htrue; [|discriminate].
    injection Htrue as <-. eauto.
  - destruct (verifyWallpaperCache_no_source W h w HW) as (w' & E & _).
    rewrite E in Htrue. discriminate.
Qed.

(** a check that answers false has logged it and made the copy *)
Lemma verifyWallpaperCache_false (W h : string) (w wv : World) :
  verifyWallpaperCache W h w = (Returns false, wv) ->
  exists f cache, w_fs w !! W = Some f /\ wv = after_miss W h f cache w.
Proof.
  intros Hfalse. destruct (w_fs w !! W) as [f|] eqn:HW.
  - destruct (verifyWallpaperCache_returns W h w f HW) as [(cache & E & _)|(cache & E)];
      rewrite E in Hfalse; [discriminate|].
    injection Hfalse as <-. eauto.
  - destruct (verifyWallpaperCache_no_source W h w HW) as (w' & E & _).
    rewrite E in Hfalse. discriminate.
Qed.


End cache.

Section cache_contract.
Context `{P : Paths}.


End cache_contract.



(** C1 fails on the code: the wallpaper replaced by other bytes of the
    same size, carrying the modification time of the cached copy, is taken
    for cached: the check returns true on the signatures alone and the
    stale copy stays. *)
Theorem verifyWallpaperCache_false_hit :
  fs_replaced !! wall = Some (mkFile "BBBB" 150)
  /\ fs_replaced !! wall_cached = Some (mkFile "AAAA" 150)
  /\ exists w',
       @verifyWallpaperCache ref_paths wall wall_hash (sample_world fs_replaced Missing)
       = (Returns true, w')
       /\ w_fs w' = fs_replaced
       /\ w_trace w' = [Log INFO ("wallpaper " ++ wall ++ " is cached as " ++ wall_cached)].
Proof.
  split; [reflexivity|]. split; [reflexivity|].
  eexists. split; [|split].
  - apply (@verifyWallpaperCache_shallow ref_paths wall wall_hash _
             (mkFile "BBBB" 150) (mkFile "AAAA" 150)); reflexivity.
  - reflexivity.
  - reflexivity.
Qed.

(** ** Worlds and traces *)

Lemma add_event_events (e : event) (w : World) : add_event e w = add_events [e] w.
Proof. reflexivity. Qed.

Lemma add_events_app (es es' : list event) (w : World) :
  add_events es' (add_events es w) = add_events (es ++ es') w.
Proof. unfold add_events. simpl. rewrite <- app_assoc. reflexivity. Qed.

Lemma add_events_nil (w : World) : add_events [] w = w.
Proof. destruct w. unfold add_events. simpl. rewrite app_nil_r. reflexivity. Qed.

(** ** The event handler *)

Lemma play_events (name : string) (images : list string) (w : World) :
  output.play name images w
  = (Returns tt, add_events (map (SetBackground name) images) w).
Proof.
  revert w. induction images as [|img rest IH]; intros w.
  - simpl. unfold ret. rewrite add_events_nil. reflexivity.
  - simpl. unfold bind, emit. rewrite IH, add_event_events, add_events_app. reflexivity.
Qed.

Lemma blur_events (o : Output) (w : World) :
  output.blur o w
  = (Returns tt,
     add_events (Invoke o m_blur :: map (SetBackground (o_name o)) (o_frames o)) w).
Proof.
  unfold output.blur, bind, emit.
  rewrite play_events, add_event_events, add_events_app. reflexivity.
Qed.

Lemma unblur_events (o : Output) (w : World) :
  output.unblur o w
  = (Returns tt,
     add_events (Invoke o m_unblur :: map (SetBackground (o_name o)) (rev (o_frames o))) w).
Proof.
  unfold output.unblur, bind, emit.
  rewrite play_events, add_event_events, add_events_app. reflexivity.
Qed.

Lemma handleBlur_known (self : BlurManager.t) (w : World)
    (focusedWindow focusedWorkspace : Con) (name : string) (o : Output) :
  w_tree w = Some (focusedWindow, Some focusedWorkspace) ->
  con_output focusedWorkspace = Some name ->
  BlurManager.outputs self !! name = Some o ->
  BlurManager.handleBlur self w
  = (Returns tt,
     add_events
       (GetTree ::
        (if con_id focusedWindow =? con_id focusedWorkspace
         then Invoke o m_unblur :: map (SetBackground (o_name o)) (rev (o_frames o))
         else Invoke o m_blur :: map (SetBackground (o_name o)) (o_frames o))) w).
Proof.
  intros Htree Hout Ho.
  unfold BlurManager.handleBlur, bind, emit, try_except. simpl.
  rewrite Htree, Hout, Ho.
  destruct (con_id focusedWindow =? con_id focusedWorkspace).
  - rewrite unblur_events, add_event_events, add_events_app. reflexivity.
  - rewrite blur_events, add_event_events, add_events_app. reflexivity.
Qed.

Lemma handleBlur_unknown (self : BlurManager.t) (w : World)
    (focusedWindow focusedWorkspace : Con) (name : string) :
  w_tree w = Some (focusedWindow, Some focusedWorkspace) ->
  con_output focusedWorkspace = Some name ->
  BlurManager.outputs self !! name = None ->
  BlurManager.handleBlur self w
  = (Returns tt,
     add_events [GetTree; Log INFO ("Output " ++ name ++ " is not an Output object")] w).
Proof.
  intros Htree Hout Hno.
  unfold BlurManager.handleBlur, bind, emit, try_except, raise. simpl.
  rewrite Htree, Hout, Hno. simpl. unfold logging.info, emit.
  rewrite !add_event_events, add_events_app. reflexivity.
Qed.

Lemma listen_subscribed (self : BlurManager.t) (ev : i3event) (t : tree)
    (rest : list (i3event * tree)) (w : World) :
  ev ∈ w_subs w ->
  BlurManager.listen self ((ev, t) :: rest) w
  = (BlurManager.handleBlur self ;; BlurManager.listen self rest) (set_tree t w).
Proof.
  intros Hev. simpl. unfold bind at 1. rewrite bool_decide_true by exact Hev.
  reflexivity.
Qed.

(** C6: for an event that finds the focus in a container on a workspace
    of an output that has an [Output] object, the handler queries the tree
    and then, when the focused container is the workspace itself (an empty
    workspace), calls [unblur()] on that [Output] and never [blur()];
    otherwise it calls [blur()] on it and never [unblur()]; and the loop
    hands every event of a subscribed kind to the handler in this way. *)
Theorem handleBlur_dispatch (self : BlurManager.t) (ev : i3event)
    (rest : list (i3event * tree)) (w : World)
    (focusedWindow focusedWorkspace : Con) (name : string) (o : Output) :
  con_output focusedWorkspace = Some name ->
  BlurManager.outputs self !! name = Some o ->
  let t : tree := Some (focusedWindow, Some focusedWorkspace) in
  let called := if con_id focusedWindow =? con_id focusedWorkspace then m_unblur else m_blur in
  let other := if con_id focusedWindow =? con_id focusedWorkspace then m_blur else m_unblur in
  let shown := if con_id focusedWindow =? con_id focusedWorkspace
               then rev (o_frames o) else o_frames o in
  let done := GetTree :: Invoke o called :: map (SetBackground (o_name o)) shown in
  BlurManager.handleBlur self (set_tree t w) = (Returns tt, add_events done (set_tree t w))
  /\ (forall o', ~ In (Invoke o' other) done)
  /\ (ev ∈ w_subs w ->
      BlurManager.listen self ((ev, t) :: rest) w
      = BlurManager.listen self rest (add_events done (set_tree t w))).
Proof.
  intros Hout Ho t called other shown done.
  assert (H : BlurManager.handleBlur self (set_tree t w)
              = (Returns tt, add_events done (set_tree t w))).
  { rewrite (handleBlur_known self (set_tree t w) focusedWindow focusedWorkspace name o);
      [|reflexivity | exact Hout | exact Ho].
    subst done called shown.
    destruct (con_id focusedWindow =? con_id focusedWorkspace); reflexivity. }
  split; [exact H|]. split.
  - intros o' [E|[E|E]]; [discriminate| |].
    + subst called other.
      destruct (con_id focusedWindow =? con_id focusedWorkspace); discriminate.
    + apply in_map_iff in E. destruct E as (? & ? & _). discriminate.
  - intros Hev. rewrite listen_subscribed by exact Hev.
    unfold bind at 1. rewrite H. reflexivity.
Qed.

Lemma handleBlur_dispatch_witness :
  BlurManager.handleBlur sample_manager (listening_world tree_empty)
  = (Returns tt,
     add_events
       [GetTree; Invoke eDP m_unblur;
        SetBackground "eDP-1" "/cache/f2"; SetBackground "eDP-1" "/cache/f1"]
       (listening_world tree_empty))
  /\ BlurManager.handleBlur sample_manager (listening_world tree_window)
     = (Returns tt,
        add_events
          [GetTree; Invoke eDP m_blur;
           SetBackground "eDP-1" "/cache/f1"; SetBackground "eDP-1" "/cache/f2"]
          (listening_world tree_window)).
Proof.
  split.
  - exact (proj1 (handleBlur_dispatch sample_manager WINDOW_CLOSE []
                    (listening_world tree_window) ws7 ws7 "eDP-1" eDP eq_refl eq_refl)).
  - exact (proj1 (handleBlur_dispatch sample_manager WINDOW_NEW []
                    (listening_world tree_empty) win12 ws7 "eDP-1" eDP eq_refl eq_refl)).
Defined.

(** C7: an event whose focused workspace is on an output that has no
    [Output] object makes the handler return normally, having queried the
    tree and logged the fact at [INFO]; nothing is written to the display
    sink, and the loop goes on with the events that follow. *)
Theorem handleBlur_unknown_output (self : BlurManager.t) (ev : i3event)
    (rest : list (i3event * tree)) (w : World)
    (focusedWindow focusedWorkspace : Con) (name : string) :
  con_output focusedWorkspace = Some name ->
  BlurManager.outputs self !! name = None ->
  let t : tree := Some (focusedWindow, Some focusedWorkspace) in
  let done := [GetTree; Log INFO ("Output " ++ name ++ " is not an Output object")] in
  BlurManager.handleBlur self (set_tree t w) = (Returns tt, add_events done (set_tree t w))
  /\ Forall (fun e => is_sink_write e = false) done
  /\ (ev ∈ w_subs w ->
      BlurManager.listen self ((ev, t) :: rest) w
      = BlurManager.listen self rest (add_events done (set_tree t w))).
Proof.
  intros Hout Hno t done.
  assert (H : BlurManager.handleBlur self (set_tree t w)
              = (Returns tt, add_events done (set_tree t w))).
  { apply (handleBlur_unknown self (set_tree t w) focusedWindow focusedWorkspace name);
      [reflexivity | exact Hout | exact Hno]. }
  split; [exact H|]. split.
  - repeat constructor.
  - intros Hev. rewrite listen_subscribed by exact Hev.
    unfold bind at 1. rewrite H. reflexivity.
Qed.

Lemma handleBlur_unknown_output_witness :
  BlurManager.listen sample_manager
    [(WINDOW_NEW, tree_other_monitor); (WINDOW_CLOSE, tree_empty)]
    (listening_world tree_window)
  = BlurManager.listen sample_manager [(WINDOW_CLOSE, tree_empty)]
      (add_events [GetTree; Log INFO "Output HDMI-A-1 is not an Output object"]
         (listening_world tree_other_monitor)).
Proof.
  refine (proj2 (proj2 (handleBlur_unknown_output sample_manager WINDOW_NEW
                          [(WINDOW_CLOSE, tree_empty)] (listening_world tree_window)
                          ws9 ws9 "HDMI-A-1" eq_refl eq_refl)) _).
  vm_compute. repeat constructor.
Defined.

(** C9, as amended: the handler returns normally whenever the tree has a
    focused container with a workspace that names its output, whether or
    not that output has an [Output] object (the [KeyError] of the lookup
    is the one error it contains). *)
Theorem handleBlur_returns (self : BlurManager.t) (w : World)
    (focusedWindow focusedWorkspace : Con) (name : string) :
  w_tree w = Some (focusedWindow, Some focusedWorkspace) ->
  con_output focusedWorkspace = Some name ->
  exists w', BlurManager.handleBlur self w = (Returns tt, w') /\ w_fs w' = w_fs w.
Proof.
  intros Htree Hout.
  destruct (BlurManager.outputs self !! name) as [o|] eqn:Ho.
  - rewrite (handleBlur_known self w _ _ _ _ Htree Hout Ho). eauto.
  - rewrite (handleBlur_unknown self w _ _ _ Htree Hout Ho). eauto.
Qed.

Lemma handleBlur_returns_witness :
  exists w', BlurManager.handleBlur sample_manager (listening_world tree_other_monitor)
             = (Returns tt, w')
             /\ w_fs w' = w_fs (listening_world tree_other_monitor).
Proof.
  exact (handleBlur_returns sample_manager (listening_world tree_other_monitor)
           ws9 ws9 "HDMI-A-1" eq_refl eq_refl).
Defined.

(** C9 as stated fails: when the tree has no focused container the handler
    raises [AttributeError], which its [except KeyError] does not catch, and
    the loop ends there: the event that follows is never handled. *)
Lemma handleBlur_raises :
  BlurManager.handleBlur sample_manager (listening_world tree_no_focus)
  = (Raises AttributeError, add_events [GetTree] (listening_world tree_no_focus))
  /\ BlurManager.listen sample_manager
       [(WINDOW_CLOSE, tree_no_focus); (WINDOW_NEW, tree_window)]
       (listening_world tree_empty)
     = (Raises AttributeError, add_events [GetTree] (listening_world tree_no_focus)).
Proof. split; vm_compute; reflexivity. Qed.

(** ** What an action touches *)

Lemma set_fs_add_events (fs : gmap string File) (es : list event) (w : World) :
  set_fs fs (add_events es w) = add_events es (set_fs fs w).
Proof. reflexivity. Qed.

Lemma set_fs_set_fs (fs fs' : gmap string File) (w : World) :
  set_fs fs' (set_fs fs w) = set_fs fs' w.
Proof. reflexivity. Qed.

Lemma set_fs_same (w : World) : set_fs (w_fs w) w = w.
Proof. destruct w. reflexivity. Qed.

(** one change of the files, of the table and of the trace after another *)
Lemma touch_touch (fs1 fs2 : gmap string File) (c1 c2 : gmap cmp_key bool)
    (es1 es2 : list event) (w : World) :
  add_events es2 (set_cmp_cache c2 (set_fs fs2
    (add_events es1 (set_cmp_cache c1 (set_fs fs1 w)))))
  = add_events (es1 ++ es2) (set_cmp_cache c2 (set_fs fs2 w)).
Proof. unfold add_events, set_cmp_cache, set_fs. simpl. rewrite <- app_assoc. reflexivity. Qed.

Lemma touch_nothing (w : World) :
  add_events [] (set_cmp_cache (w_cmp_cache w) (set_fs (w_fs w) w)) = w.
Proof. rewrite set_fs_same, set_cmp_cache_same, add_events_nil. reflexivity. Qed.

Lemma acts_ret {A} (ok : event -> Prop) (a : A) : acts ok (ret a).
Proof. intros w. exists []. simpl. rewrite touch_nothing. auto. Qed.

Lemma acts_raise {A} (ok : event -> Prop) (e : exn) : acts ok (@raise A e).
Proof. intros w. exists []. simpl. rewrite touch_nothing. auto. Qed.

Lemma acts_exit {A} (ok : event -> Prop) : acts ok (@exit A).
Proof. intros w. exists []. simpl. rewrite touch_nothing. auto. Qed.

Lemma acts_emit (ok : event -> Prop) (e : event) : ok e -> acts ok (emit e).
Proof.
  intros He w. exists [e]. simpl. rewrite set_fs_same, set_cmp_cache_same. auto.
Qed.

(** after an action that [acts], the world is the old one with new files,
    a new table and more events *)
Lemma acts_then {A} (ok : event -> Prop) (m : M A) (w : World) :
  acts ok m ->
  exists fs cache es,
    snd (m w) = add_events es (set_cmp_cache cache (set_fs fs w)) /\ Forall ok es.
Proof. intros Hm. destruct (Hm w) as (es & E & Hok). eauto. Qed.

Lemma acts_intro {A} (ok : event -> Prop) (m : M A) :
  (forall w, exists fs cache es,
     snd (m w) = add_events es (set_cmp_cache cache (set_fs fs w)) /\ Forall ok es) ->
  acts ok m.
Proof.
  intros H w. destruct (H w) as (fs & cache & es & E & Hok). exists es.
  rewrite E. simpl. auto.
Qed.

(** an action that leaves the world as it is *)
Lemma acts_quiet {A} (ok : event -> Prop) (m : M A) :
  (forall w, snd (m w) = w) -> acts ok m.
Proof. intros H w. exists []. rewrite H, touch_nothing. auto. Qed.

Lemma acts_bind {A B} (ok : event -> Prop) (m : M A) (k : A -> M B) :
  acts ok m -> (forall a, acts ok (k a)) -> acts ok (bind m k).
Proof.
  intros Hm Hk. apply acts_intro. intros w. unfold bind.
  destruct (acts_then ok m w Hm) as (fs1 & c1 & es1 & E1 & Hok1).
  destruct (m w) as [[a|e| |] w1]; simpl in E1; subst w1; simpl; eauto.
  destruct (acts_then ok (k a) (add_events es1 (set_cmp_cache c1 (set_fs fs1 w))) (Hk a))
    as (fs2 & c2 & es2 & E2 & Hok2).
  exists fs2, c2, (es1 ++ es2)%list. rewrite E2.
  split; [apply touch_touch | apply Forall_app; auto].
Qed.

Lemma acts_try_except {A} (ok : event -> Prop) (m h : M A) (e : exn) :
  acts ok m -> acts ok h -> acts ok (try_except m e h).
Proof.
  intros Hm Hh. apply acts_intro. intros w. unfold try_except.
  destruct (acts_then ok m w Hm) as (fs1 & c1 & es1 & E1 & Hok1).
  destruct (m w) as [[a|e'| |] w1]; simpl in E1; subst w1; simpl; eauto.
  destruct (decide (e' = e)); simpl; eauto.
  destruct (acts_then ok h (add_events es1 (set_cmp_cache c1 (set_fs fs1 w))) Hh)
    as (fs2 & c2 & es2 & E2 & Hok2).
  exists fs2, c2, (es1 ++ es2)%list. rewrite E2.
  split; [apply touch_touch | apply Forall_app; auto].
Qed.

Lemma acts_weaken {A} (ok ok' : event -> Prop) (m : M A) :
  (forall e, ok e -> ok' e) -> acts ok m -> acts ok' m.
Proof.
  intros Himp Hm w. destruct (Hm w) as (es & E & Hok). exists es.
  split; [exact E|]. eapply Forall_impl; eauto.
Qed.

Lemma acts_emits {A} (ok : event -> Prop) (m : M A) : acts ok m -> emits ok m.
Proof.
  intros Hm w. destruct (Hm w) as (es & E & Hok). exists es.
  rewrite E. simpl. auto.
Qed.

Lemma emits_bind {A B} (ok : event -> Prop) (m : M A) (k : A -> M B) :
  emits ok m -> (forall a, emits ok (k a)) -> emits ok (bind m k).
Proof.
  intros Hm Hk w. unfold bind.
  destruct (Hm w) as (es1 & E1 & Hok1).
  destruct (m w) as [[a|e| |] w1]; simpl in E1; simpl; eauto.
  destruct (Hk a w1) as (es2 & E2 & Hok2).
  exists (es1 ++ es2)%list. rewrite E2, E1, app_assoc.
  split; [reflexivity | apply Forall_app; auto].
Qed.

Lemma emits_quiet {A} (ok : event -> Prop) (m : M A) :
  (forall w, w_trace (snd (m w)) = w_trace w) -> emits ok m.
Proof. intros H w. exists []. rewrite H, app_nil_r. auto. Qed.

Lemma acts_exists (ok : event -> Prop) (path : string) : acts ok (paths.exists_ path).
Proof. apply acts_quiet. reflexivity. Qed.

Lemma acts_stat (ok : event -> Prop) (path : string) : acts ok (os.stat path).
Proof.
  apply acts_quiet. intros w. unfold os.stat. destruct (w_fs w !! path); reflexivity.
Qed.

(** a change of the table of [filecmp] alone *)
Lemma acts_cache {A} (ok : event -> Prop) (m : M A) :
  (forall w, exists cache, snd (m w) = set_cmp_cache cache w) -> acts ok m.
Proof.
  intros H. apply acts_intro. intros w. destruct (H w) as (cache & E).
  exists (w_fs w), cache, []. rewrite E, set_fs_same, add_events_nil. auto.
Qed.

Lemma acts_cmp (ok : event -> Prop) (f1 f2 : string) : acts ok (filecmp.cmp f1 f2).
Proof.
  unfold filecmp.cmp.
  apply acts_bind; [apply acts_stat|]. intros s1.
  apply acts_bind; [apply acts_stat|]. intros s2.
  destruct (bool_decide _); [apply acts_ret|].
  destruct (negb _); [apply acts_ret|].
  apply acts_bind; [apply acts_quiet; reflexivity|]. intros [outcome|]; [apply acts_ret|].
  apply acts_bind; [apply acts_quiet; reflexivity|]. intros len.
  apply acts_bind.
  { destruct (Nat.ltb 100 len); [apply acts_cache; intros w; eexists; reflexivity
                                | apply acts_ret]. }
  intros _. apply acts_bind; [|intros; apply acts_ret].
  apply acts_cache. intros w. eexists. reflexivity.
Qed.

Lemma acts_copy (ok : event -> Prop) (src dst : string) :
  ok (Copy src dst) -> acts ok (shutil.copy src dst).
Proof.
  intros Hok. apply acts_intro. intros w. unfold shutil.copy.
  destruct (w_fs w !! src) as [f|].
  - destruct (bool_decide (src = dst)); simpl.
    + exists (w_fs w), (w_cmp_cache w), []. rewrite touch_nothing. auto.
    + eexists _, (w_cmp_cache w), [Copy src dst]. split; [reflexivity | auto].
  - exists (w_fs w), (w_cmp_cache w), []. simpl. rewrite touch_nothing. auto.
Qed.

Lemma acts_run_convert (ok : event -> Prop) (inputPath outputPath : string) (blurLevel : Z) :
  ok (Run inputPath blurLevel outputPath) ->
  acts ok (subprocess.run_convert inputPath blurLevel outputPath).
Proof.
  intros Hok. apply acts_intro. intros w. unfold subprocess.run_convert.
  destruct (w_convert w) as [|run].
  - exists (w_fs w), (w_cmp_cache w), []. simpl. rewrite touch_nothing. auto.
  - destruct (run _ _) as [code written]. simpl.
    eexists _, (w_cmp_cache w), [Run inputPath blurLevel outputPath].
    split; [reflexivity | auto].
Qed.

Lemma acts_genBlurredImage (inputPath outputPath : string) (blurLevel : Z) :
  acts setup_event (genBlurredImage inputPath outputPath blurLevel).
Proof.
  unfold genBlurredImage, logging.error, logging.info.
  apply acts_bind.
  - apply acts_try_except.
    + apply acts_bind; [apply acts_run_convert; reflexivity | intros; apply acts_ret].
    + apply acts_bind; [apply acts_emit; reflexivity | intros; apply acts_exit].
  - intros _. apply acts_emit. reflexivity.
Qed.

(** ** The pool and its batches *)

Lemma chunksize_pos (len workers : nat) :
  (0 < len)%nat -> (0 < workers)%nat -> (0 < multiprocessing.chunksize len workers)%nat.
Proof.
  intros Hl Hw. unfold multiprocessing.chunksize.
  destruct (Nat.modulo len (workers * 4)) eqn:E; [|lia].
  pose proof (Nat.div_mod_eq len (workers * 4)) as Hdm. rewrite E in Hdm.
  destruct (Nat.div len (workers * 4)); lia.
Qed.

(** the batches are the jobs, in their order *)
Lemma get_tasks_concat {A} (fuel size : nat) (it : list A) :
  (List.length it <= fuel)%nat ->
  (0 < size)%nat \/ it = [] ->
  concat (multiprocessing.get_tasks fuel size it) = it.
Proof.
  revert it. induction fuel as [|fuel IH]; intros it Hfuel Hsize.
  - destruct it; [reflexivity | simpl in Hfuel; lia].
  - destruct it as [|x it]; [destruct size; reflexivity|].
    destruct Hsize as [Hsize|?]; [|discriminate].
    destruct size as [|size]; [lia|].
    cbn [multiprocessing.get_tasks take drop concat].
    rewrite IH.
    + rewrite <- app_comm_cons. f_equal. apply take_drop.
    + rewrite length_drop. simpl in Hfuel. lia.
    + left. lia.
Qed.

Lemma get_tasks_nonempty {A} (fuel size : nat) (it : list A) :
  Forall (fun batch => batch <> []) (multiprocessing.get_tasks fuel size it).
Proof.
  revert it. induction fuel as [|fuel IH]; intros it; [constructor|].
  simpl. destruct (take size it) eqn:E; constructor; [discriminate | apply IH].
Qed.

(** the batches of the jobs of [starmap], for the workers of a world *)
Lemma run_jobs_batches {A} (f : A -> M unit) (jobs : list A) (w : World) :
  exists batches,
    multiprocessing.run_jobs f jobs w = multiprocessing.run_batches f batches w
    /\ concat batches = jobs
    /\ Forall (fun batch => batch <> []) batches.
Proof.
  unfold multiprocessing.run_jobs, bind, multiprocessing.processes.
  eexists. split; [reflexivity|]. split; [|apply get_tasks_nonempty].
  apply get_tasks_concat; [lia|].
  destruct jobs as [|j jobs]; [right; reflexivity | left].
  apply chunksize_pos; [simpl; lia | destruct (w_cpus w); lia].
Qed.

(** no job: no batch *)
Lemma run_jobs_nil {A} (f : A -> M unit) (w : World) :
  multiprocessing.run_jobs f [] w = (Returns tt, w).
Proof. reflexivity. Qed.

(** what every job preserves, the pool preserves *)
Lemma run_batch_preserves {A} (f : A -> M unit) (R : World -> World -> Prop)
    (batch : list A) (w : World) :
  (forall w, R w w) ->
  (forall w1 w2 w3, R w1 w2 -> R w2 w3 -> R w1 w3) ->
  (forall j w, In j batch -> R w (snd (f j w))) ->
  R w (snd (multiprocessing.run_batch f batch w)).
Proof.
  intros Hrefl Htrans. revert w. induction batch as [|j rest IH]; intros w Hf.
  - apply Hrefl.
  - cbn [multiprocessing.run_batch]. unfold bind.
    pose proof (Hf j w (or_introl eq_refl)) as H1.
    destruct (f j w) as [[[]|e| |] w1]; cbn [snd] in H1 |- *; try exact H1.
    eapply Htrans; [exact H1|]. apply IH. intros j' w' Hin. apply Hf. right. exact Hin.
Qed.

Lemma run_batches_preserves {A} (f : A -> M unit) (R : World -> World -> Prop)
    (batches : list (list A)) (w : World) :
  (forall w, R w w) ->
  (forall w1 w2 w3, R w1 w2 -> R w2 w3 -> R w1 w3) ->
  (forall j w, In j (concat batches) -> R w (snd (f j w))) ->
  R w (snd (multiprocessing.run_batches f batches w)).
Proof.
  intros Hrefl Htrans. revert w. induction batches as [|batch rest IH]; intros w Hf.
  - apply Hrefl.
  - cbn [multiprocessing.run_batches].
    pose proof (run_batch_preserves f R batch w Hrefl Htrans) as H1.
    destruct (multiprocessing.run_batch f batch w) as [r w1]. cbn [snd] in H1.
    pose proof (IH w1) as H2.
    destruct (multiprocessing.run_batches f rest w1) as [rs w2]. cbn [snd] in H2 |- *.
    eapply Htrans; [apply H1 | apply H2]; intros j' w' Hin; apply Hf; simpl;
      apply in_or_app; auto.
Qed.

Lemma run_jobs_preserves {A} (f : A -> M unit) (R : World -> World -> Prop)
    (jobs : list A) (w : World) :
  (forall w, R w w) ->
  (forall w1 w2 w3, R w1 w2 -> R w2 w3 -> R w1 w3) ->
  (forall j w, In j jobs -> R w (snd (f j w))) ->
  R w (snd (multiprocessing.run_jobs f jobs w)).
Proof.
  intros Hrefl Htrans Hf.
  destruct (run_jobs_batches f jobs w) as (batches & -> & <- & _).
  apply run_batches_preserves; assumption.
Qed.

Lemma acts_run_batch {A} (ok : event -> Prop) (f : A -> M unit) (batch : list A) :
  (forall j, acts ok (f j)) -> acts ok (multiprocessing.run_batch f batch).
Proof.
  intros Hf. induction batch as [|j rest IH]; [apply acts_ret|].
  simpl. apply acts_bind; [apply Hf | intros _; exact IH].
Qed.

Lemma acts_run_batches {A} (ok : event -> Prop) (f : A -> M unit) (batches : list (list A)) :
  (forall j, acts ok (f j)) -> acts ok (multiprocessing.run_batches f batches).
Proof.
  intros Hf. induction batches as [|batch rest IH]; [apply acts_ret|].
  apply acts_intro. intros w. simpl.
  destruct (acts_then ok _ w (acts_run_batch ok f batch Hf)) as (fs1 & c1 & es1 & E1 & Hok1).
  destruct (multiprocessing.run_batch f batch w) as [r w1]. simpl in E1. subst w1.
  destruct (acts_then ok _ (add_events es1 (set_cmp_cache c1 (set_fs fs1 w))) IH)
    as (fs2 & c2 & es2 & E2 & Hok2).
  destruct (multiprocessing.run_batches f rest _) as [rs w2]. simpl in E2 |- *. subst w2.
  exists fs2, c2, (es1 ++ es2)%list.
  split; [apply touch_touch | apply Forall_app; auto].
Qed.

Lemma acts_run_jobs {A} (ok : event -> Prop) (f : A -> M unit) (jobs : list A) :
  (forall j, acts ok (f j)) -> acts ok (multiprocessing.run_jobs f jobs).
Proof.
  intros Hf w. destruct (run_jobs_batches f jobs w) as (batches & -> & _).
  apply acts_run_batches. exact Hf.
Qed.

Section setup.
Context `{P : Paths}.

Lemma acts_cache_verifyWallpaperCache (W h : string) :
  acts cache_event (verifyWallpaperCache W h).
Proof.
  unfold verifyWallpaperCache, logging.info.
  apply acts_bind; [apply acts_exists|]. intros present.
  apply acts_bind.
  { destruct present; [apply acts_cmp | apply acts_ret]. }
  intros [|].
  - apply acts_bind; [apply acts_emit; simpl; eauto | intros; apply acts_ret].
  - apply acts_bind; [apply acts_emit; simpl; eauto|]. intros _.
    apply acts_bind; [apply acts_copy; exact I | intros; apply acts_ret].
Qed.

Lemma cache_event_setup (e : event) : cache_event e -> setup_event e.
Proof. destruct e as [|[|] ?| | | | | | | | |]; simpl; intros H; try reflexivity; destruct H. Qed.

Lemma cache_event_unfiltered (e : event) : cache_event e -> unfiltered_event e.
Proof.
  destruct e as [|[|] msg| | | | | | | | |]; simpl; intros H; try destruct H.
  - split; [reflexivity|]. simpl. intros [o E]. subst msg. discriminate.
  - split; [reflexivity|]. simpl. tauto.
Qed.

Lemma cache_event_no_pool (e : event) (jobs : list (string * string * Z)) :
  cache_event e -> e <> Starmap jobs.
Proof. intros H ->. exact H. Qed.

Lemma acts_verifyWallpaperCache (W h : string) :
  acts setup_event (verifyWallpaperCache W h).
Proof.
  eapply acts_weaken; [apply cache_event_setup | apply acts_cache_verifyWallpaperCache].
Qed.

Lemma acts_configure (frames : list Z) (outs : gmap string Output) (name : string)
    (outputCfg : OutputCfg) :
  acts setup_event (BlurManager.configure frames outs name outputCfg).
Proof.
  unfold BlurManager.configure, logging.info, print.
  destruct (image_of outputCfg) as [image|].
  - apply acts_bind; [apply acts_verifyWallpaperCache|]. intros [|]; simpl.
    + apply acts_bind; [apply acts_emit; reflexivity | intros; apply acts_ret].
    + repeat (apply acts_bind; [apply acts_emit; reflexivity | intros _]).
      apply acts_bind.
      { apply acts_run_jobs. intros [[i o] l]. apply acts_genBlurredImage. }
      intros _. apply acts_bind; [apply acts_emit; reflexivity | intros; apply acts_ret].
  - apply acts_bind; [apply acts_emit; reflexivity | intros; apply acts_ret].
Qed.



End setup.

(** ** The event loop adds no generation event *)

Lemma emits_emit (ok : event -> Prop) (e : event) : ok e -> emits ok (emit e).
Proof. intros He w. exists [e]. simpl. auto. Qed.

Lemma emits_handleBlur (self : BlurManager.t) :
  emits listen_event (BlurManager.handleBlur self).
Proof.
  unfold BlurManager.handleBlur.
  apply emits_bind; [apply emits_emit; reflexivity | intros _].
  apply emits_bind; [apply emits_quiet; reflexivity | intros [[fw [ws|]]|]];
    try (apply emits_quiet; reflexivity).
  destruct (con_output ws) as [name|]; [|apply emits_quiet; reflexivity].
  intros w. unfold try_except.
  destruct (BlurManager.outputs self !! name) as [o|].
  - destruct (con_id fw =? con_id ws).
    + rewrite unblur_events. eexists. split; [reflexivity|].
      constructor; [reflexivity|]. apply Forall_map, Forall_forall. reflexivity.
    + rewrite blur_events. eexists. split; [reflexivity|].
      constructor; [reflexivity|]. apply Forall_map, Forall_forall. reflexivity.
  - simpl. eexists. split; [reflexivity|]. repeat constructor.
Qed.

Lemma emits_on (ev : i3event) : emits listen_event (BlurManager.on ev).
Proof. intros w. exists [On ev]. simpl. split; [reflexivity | repeat constructor]. Qed.

Lemma emits_listen (self : BlurManager.t) (stream : list (i3event * tree)) :
  emits listen_event (BlurManager.listen self stream).
Proof.
  induction stream as [|[ev t] rest IH]; [apply emits_quiet; reflexivity|].
  simpl. apply emits_bind; [apply emits_quiet; reflexivity | intros subscribed].
  apply emits_bind; [|intros _; exact IH].
  destruct subscribed; [apply emits_handleBlur | apply emits_quiet; reflexivity].
Qed.

Lemma emits_start (self : BlurManager.t) (stream : list (i3event * tree)) :
  emits listen_event (BlurManager.start self stream).
Proof.
  unfold BlurManager.start, print.
  apply emits_bind; [apply emits_emit; reflexivity | intros _].
  do 4 (apply emits_bind; [apply emits_on | intros _]).
  apply emits_bind; [apply emits_emit; reflexivity | intros _].
  apply emits_listen.
Qed.

(** the first events of [start]: the line it prints, the four
    subscriptions, the loop *)
Lemma start_listens (self : BlurManager.t) (stream : list (i3event * tree)) (w : World) :
  BlurManager.start self stream w
  = BlurManager.listen self stream
      (add_events [Print "Listening..."; On WINDOW_NEW; On WINDOW_CLOSE; On WINDOW_MOVE;
                   On WORKSPACE_FOCUS; Main]
         (set_subs (w_subs w ++ [WINDOW_NEW; WINDOW_CLOSE; WINDOW_MOVE; WORKSPACE_FOCUS]) w)).
Proof.
  cbv [BlurManager.start bind print BlurManager.on emit add_event add_events set_subs
       w_fs w_now w_convert w_subs w_tree w_trace].
  destruct w as [fs now conv subs t tr].
  repeat rewrite <- app_assoc. reflexivity.
Qed.


(** ** The frame jobs *)

Lemma genBlurredImage_missing (inputPath outputPath : string) (blurLevel : Z) (w : World) :
  w_convert w = Missing ->
  genBlurredImage inputPath outputPath blurLevel w
  = (Exits, add_events [Log ERROR imagemagick_message] w).
Proof.
  intros Hm. unfold genBlurredImage, bind, try_except, subprocess.run_convert.
  rewrite Hm. simpl. reflexivity.
Qed.

Lemma genBlurredImage_installed (inputPath outputPath : string) (blurLevel : Z) (w : World)
    (run : option string -> Z -> Z * option string) :
  w_convert w = Installed run ->
  exists fs,
    genBlurredImage inputPath outputPath blurLevel w
    = (Returns tt,
       add_events [Run inputPath blurLevel outputPath; Log INFO ("Generated image " ++ outputPath)]
         (set_fs fs w))
    /\ fs = match snd (run (f_data <$> w_fs w !! inputPath) blurLevel) with
            | Some bytes => <[outputPath := mkFile bytes (w_now w)]> (w_fs w)
            | None => w_fs w
            end.
Proof.
  intros Hi. unfold genBlurredImage, bind, try_except, subprocess.run_convert.
  rewrite Hi. destruct (run _ _) as [code written]. simpl.
  eexists. split; [|reflexivity].
  unfold logging.info, emit. rewrite !add_event_events, add_events_app. reflexivity.
Qed.

(** a job that returns has run the filter and reported its image *)
Lemma genBlurredImage_returns (inputPath outputPath : string) (blurLevel : Z) (w w' : World) :
  genBlurredImage inputPath outputPath blurLevel w = (Returns tt, w') ->
  w_trace w'
  = (w_trace w ++ [Run inputPath blurLevel outputPath;
                   Log INFO ("Generated image " ++ outputPath)])%list.
Proof.
  intros Hret. destruct (w_convert w) as [|run] eqn:Hc.
  - rewrite genBlurredImage_missing in Hret by exact Hc. discriminate.
  - destruct (genBlurredImage_installed inputPath outputPath blurLevel w run Hc) as (fs & E & _).
    rewrite E in Hret. injection Hret as <-. reflexivity.
Qed.

(** a batch that returns has run every one of its jobs *)
Lemma run_batch_returns (batch : list (string * string * Z)) (w w' : World) :
  multiprocessing.run_batch BlurManager.run_job batch w = (Returns tt, w') ->
  exists es,
    w_trace w' = (w_trace w ++ es)%list
    /\ forall inputPath outputPath blurLevel,
         In (inputPath, outputPath, blurLevel) batch ->
         In (Run inputPath blurLevel outputPath) es
         /\ In (Log INFO ("Generated image " ++ outputPath)) es.
Proof.
  revert w. induction batch as [|[[i o] l] rest IH]; intros w Hret.
  - injection Hret as <-. exists []. rewrite app_nil_r. split; [reflexivity|].
    intros ? ? ? [].
  - cbn [multiprocessing.run_batch BlurManager.run_job] in Hret. unfold bind in Hret.
    destruct (genBlurredImage i o l w) as [[[]|e| |] w1] eqn:E1; try discriminate.
    apply genBlurredImage_returns in E1.
    destruct (IH _ Hret) as (es & Et & Hes).
    eexists. rewrite Et, E1, <- app_assoc. split; [reflexivity|].
    intros i' o' l' [Hin|Hin].
    + injection Hin as <- <- <-. simpl. auto.
    + destruct (Hes _ _ _ Hin) as [H1 H2]. split; apply in_or_app; right; simpl; auto.
Qed.

Lemma run_batches_returns (batches : list (list (string * string * Z))) (w w' : World) :
  multiprocessing.run_batches BlurManager.run_job batches w = (Returns tt, w') ->
  exists es,
    w_trace w' = (w_trace w ++ es)%list
    /\ forall inputPath outputPath blurLevel,
         In (inputPath, outputPath, blurLevel) (concat batches) ->
         In (Run inputPath blurLevel outputPath) es
         /\ In (Log INFO ("Generated image " ++ outputPath)) es.
Proof.
  revert w. induction batches as [|batch rest IH]; intros w Hret.
  - injection Hret as <-. exists []. rewrite app_nil_r. split; [reflexivity|].
    intros ? ? ? [].
  - simpl in Hret.
    destruct (multiprocessing.run_batch BlurManager.run_job batch w) as [r w1] eqn:E1.
    destruct (multiprocessing.run_batches BlurManager.run_job rest w1) as [rs w2] eqn:E2.
    injection Hret as Hjoin <-.
    destruct r as [[]|e| |]; simpl in Hjoin; try discriminate;
      [|destruct rs; discriminate]. subst rs.
    apply run_batch_returns in E1. destruct E1 as (es1 & Et1 & Hes1).
    destruct (IH _ E2) as (es & Et & Hes).
    exists (es1 ++ es)%list. rewrite Et, Et1, <- app_assoc. split; [reflexivity|].
    intros i' o' l' Hin. simpl in Hin. apply in_app_or in Hin. destruct Hin as [Hin|Hin].
    + destruct (Hes1 _ _ _ Hin) as [H1 H2]. split; apply in_or_app; left; assumption.
    + destruct (Hes _ _ _ Hin) as [H1 H2]. split; apply in_or_app; right; assumption.
Qed.

(** a pool that returns has run every one of its jobs *)
Lemma run_jobs_returns (jobs : list (string * string * Z)) (w w' : World) :
  multiprocessing.run_jobs BlurManager.run_job jobs w = (Returns tt, w') ->
  exists es,
    w_trace w' = (w_trace w ++ es)%list
    /\ forall inputPath outputPath blurLevel,
         In (inputPath, outputPath, blurLevel) jobs ->
         In (Run inputPath blurLevel outputPath) es
         /\ In (Log INFO ("Generated image " ++ outputPath)) es.
Proof.
  destruct (run_jobs_batches BlurManager.run_job jobs w) as (batches & -> & <- & _).
  apply run_batches_returns.
Qed.

(** ** The constructor *)

Section init.
Context `{P : Paths}.

(** the body of the loop, by the answer of the cache check *)
Lemma configure_image (frames : list Z) (outs : gmap string Output) (name image : string)
    (outputCfg : OutputCfg) (w : World) :
  image_of outputCfg = Some image ->
  let hash := BlurManager.imageHash image in
  let jobs := BlurManager.jobs (cachedImagePath image hash) hash frames in
  let outs' := <[name := output_of frames name image outputCfg]> outs in
  BlurManager.configure frames outs name outputCfg w
  = match verifyWallpaperCache image hash w with
    | (Returns true, w1) =>
        (Returns outs', add_events [Print ("Blurred wallpaper exists for " ++ name)] w1)
    | (Returns false, w1) =>
        match multiprocessing.run_jobs BlurManager.run_job jobs
                (add_events [Print "Generating blurred wallpaper frames";
                             Print "This may take a minute..."; Starmap jobs] w1) with
        | (Returns _, w2) =>
            (Returns outs', add_events [Print ("Blurred wallpaper generated for " ++ name)] w2)
        | (Raises e, w2) => (Raises e, w2)
        | (Exits, w2) => (Exits, w2)
        | (WorkerLost, w2) => (WorkerLost, w2)
        end
    | (Raises e, w1) => (Raises e, w1)
    | (Exits, w1) => (Exits, w1)
    | (WorkerLost, w1) => (WorkerLost, w1)
    end.
Proof.
  intros Himg hash jobs outs'. unfold BlurManager.configure. rewrite Himg.
  fold hash. unfold bind at 1.
  destruct (verifyWallpaperCache image hash w) as [[[|]|e| |] w1]; try reflexivity.
  simpl. unfold print, bind, emit, multiprocessing.Pool_starmap. simpl.
  fold jobs. rewrite !add_event_events, !add_events_app. simpl.
  destruct (multiprocessing.run_jobs _ _ _) as [[[]|e| |] w2]; reflexivity.
Qed.

Lemma configure_no_image (frames : list Z) (outs : gmap string Output) (name : string)
    (outputCfg : OutputCfg) (w : World) :
  image_of outputCfg = None ->
  BlurManager.configure frames outs name outputCfg w
  = (Returns outs, add_events [Log INFO ("Output " ++ name ++ " has no wallpaper set")] w).
Proof. intros Himg. unfold BlurManager.configure. rewrite Himg. reflexivity. Qed.

(** a body that returns has registered the output the configuration asks
    for, and has prepared it *)
Lemma configure_returns (frames : list Z) (outs outs1 : gmap string Output) (name : string)
    (outputCfg : OutputCfg) (w w1 : World) :
  BlurManager.configure frames outs name outputCfg w = (Returns outs1, w1) ->
  outs1 = match image_of outputCfg with
          | None => outs
          | Some image => <[name := output_of frames name image outputCfg]> outs
          end
  /\ exists es, w_trace w1 = (w_trace w ++ es)%list
       /\ (forall image, image_of outputCfg = Some image -> prepared frames name image es).
Proof.
  intros Hret.
  destruct (image_of outputCfg) as [image|] eqn:Himg.
  - rewrite (configure_image _ _ _ image) in Hret by exact Himg.
    destruct (verifyWallpaperCache image (BlurManager.imageHash image) w)
      as [[[|]|e| |] wv] eqn:Ev; try discriminate.
    + apply verifyWallpaperCache_true in Ev. destruct Ev as (cache & ->).
      injection Hret as <- <-. split; [reflexivity|].
      eexists. split; [simpl; rewrite <- app_assoc; reflexivity|].
      intros ? [= <-]. left. split; repeat rewrite in_app_iff; simpl; auto 15.
    + apply verifyWallpaperCache_false in Ev. destruct Ev as (f & cache & _ & ->).
      match type of Hret with
      | context [multiprocessing.run_jobs ?f ?js ?w0] =>
          destruct (multiprocessing.run_jobs f js w0) as [[[]|e| |] wj] eqn:Ej;
            try discriminate
      end.
      apply run_jobs_returns in Ej. destruct Ej as (esj & Ej & Hjobs).
      injection Hret as <- <-. split; [reflexivity|].
      eexists. split.
      { simpl. rewrite Ej. simpl. rewrite <- !app_assoc. reflexivity. }
      intros ? [= <-]. right. split; [|split; [|split]].
      * repeat rewrite in_app_iff. simpl. auto 15.
      * repeat rewrite in_app_iff. simpl. auto 15.
      * intros frame Hin.
        destruct (Hjobs (cachedImagePath image (BlurManager.imageHash image))
                    (framePath (BlurManager.imageHash image) frame) frame) as [H1 H2].
        { unfold BlurManager.jobs. apply in_map_iff. exists frame. auto. }
        split; repeat rewrite in_app_iff; simpl; auto 15.
      * repeat rewrite in_app_iff. simpl. auto 15.
  - rewrite configure_no_image in Hret by exact Himg.
    injection Hret as <- <-. split; [reflexivity|].
    eexists. split; [reflexivity|]. intros image Hi. discriminate.
Qed.

Lemma prepared_app (frames : list Z) (name image : string) (es es' : list event) :
  prepared frames name image es \/ prepared frames name image es' ->
  prepared frames name image (es ++ es').
Proof.
  unfold prepared.
  intros [[[H1 H2]|(H1 & H2 & H3 & H4)]|[[H1 H2]|(H1 & H2 & H3 & H4)]].
  - left. split; apply in_or_app; auto.
  - right. split; [|split; [|split]]; try (apply in_or_app; auto).
    intros frame Hin. destruct (H3 frame Hin). split; apply in_or_app; auto.
  - left. split; apply in_or_app; auto.
  - right. split; [|split; [|split]]; try (apply in_or_app; auto).
    intros frame Hin. destruct (H3 frame Hin). split; apply in_or_app; auto.
Qed.

Lemma configure_all_returns (frames : list Z) (outputConfigs : list (string * OutputCfg))
    (outs outs1 : gmap string Output) (w w1 : World) :
  BlurManager.configure_all frames outputConfigs outs w = (Returns outs1, w1) ->
  outs1 = configured_outputs frames outputConfigs outs
  /\ exists es, w_trace w1 = (w_trace w ++ es)%list
       /\ (forall name outputCfg image,
             In (name, outputCfg) outputConfigs -> image_of outputCfg = Some image ->
             prepared frames name image es).
Proof.
  revert outs w. induction outputConfigs as [|[name cfg] rest IH]; intros outs w Hret.
  - injection Hret as <- <-. split; [reflexivity|].
    exists []. rewrite app_nil_r. split; [reflexivity|]. intros ? ? ? [].
  - simpl in Hret. unfold bind in Hret.
    destruct (BlurManager.configure frames outs name cfg w) as [[outs0|e| |] w0] eqn:E0;
      try discriminate.
    destruct (configure_returns _ _ _ _ _ _ _ E0) as (-> & es0 & Et0 & Hr0).
    destruct (IH _ _ Hret) as (-> & es1 & Et1 & Hr1).
    split; [reflexivity|].
    exists (es0 ++ es1)%list. rewrite Et1, Et0, app_assoc. split; [reflexivity|].
    intros n c image [Hin|Hin] Hi; apply prepared_app.
    + injection Hin as <- <-. left. eapply Hr0; eauto.
    + right. eapply Hr1; eauto.
Qed.

Lemma init_returns (outputConfigs : list (string * OutputCfg))
    (blurStrength animationDuration : Z) (self : BlurManager.t) (w w1 : World) :
  BlurManager.__init__ outputConfigs blurStrength animationDuration w = (Returns self, w1) ->
  BlurManager.outputs self
  = configured_outputs (animationFrames blurStrength animationDuration) outputConfigs ∅
  /\ exists es, w_trace w1 = (w_trace w ++ Connect :: es)%list
       /\ (forall name outputCfg image,
             In (name, outputCfg) outputConfigs -> image_of outputCfg = Some image ->
             prepared (animationFrames blurStrength animationDuration) name image es).
Proof.
  unfold BlurManager.__init__, bind, emit, ret. intros Hret.
  destruct (BlurManager.configure_all _ _ _ _) as [[outs|e| |] w0] eqn:E0; try discriminate.
  injection Hret as <- <-.
  destruct (configure_all_returns _ _ _ _ _ _ E0) as (-> & es & Et & Hr).
  split; [reflexivity|]. exists es. rewrite Et. simpl. rewrite <- app_assoc.
  split; [reflexivity | exact Hr].
Qed.

End init.

(** ** The identity of a wallpaper *)

Section identity.
Context `{P : Paths}.

Lemma configured_outputs_lookup (frames : list Z) (outputConfigs : list (string * OutputCfg))
    (outs : gmap string Output) (name : string) (o : Output) :
  configured_outputs frames outputConfigs outs !! name = Some o ->
  outs !! name = Some o
  \/ exists outputCfg image,
       In (name, outputCfg) outputConfigs /\ image_of outputCfg = Some image
       /\ o = output_of frames name image outputCfg.
Proof.
  revert outs. induction outputConfigs as [|[n cfg] rest IH]; intros outs H.
  - left. exact H.
  - simpl in H. apply IH in H. destruct H as [H|(c & image & Hin & Hi & ->)].
    + destruct (image_of cfg) as [image|] eqn:Hi; [|left; exact H].
      destruct (decide (n = name)) as [->|Hne].
      * rewrite lookup_insert_eq in H. injection H as <-.
        right. exists cfg, image. split; [left; reflexivity | auto].
      * rewrite lookup_insert_ne in H by exact Hne. left. exact H.
    + right. exists c, image. split; [right; exact Hin | auto].
Qed.

(** C10, as amended: the identity of a wallpaper is the MD5 of its path
    text and is never computed from the bytes of the file: the outputs the
    constructor builds are the same whatever the files hold, each with the
    cached path and the frame paths computed from the configured path
    alone; equal path strings give equal identities, cached paths and
    frame paths, and equal identities give equal frame paths. *)
Theorem identity_from_path (outputConfigs : list (string * OutputCfg))
    (blurStrength animationDuration : Z) (self : BlurManager.t) (w w1 : World) :
  BlurManager.__init__ outputConfigs blurStrength animationDuration w = (Returns self, w1) ->
  (forall w' self' w1',
     BlurManager.__init__ outputConfigs blurStrength animationDuration w' = (Returns self', w1') ->
     self' = self)
  /\ (forall name o,
        BlurManager.outputs self !! name = Some o ->
        exists outputCfg image,
          In (name, outputCfg) outputConfigs /\ image_of outputCfg = Some image
          /\ o_wallpaper o = cachedImagePath image (hashlib.md5_hexdigest image)
          /\ o_frames o = map (framePath (hashlib.md5_hexdigest image))
                            (animationFrames blurStrength animationDuration))
  /\ (forall image image' : string,
        image = image' ->
        BlurManager.imageHash image = BlurManager.imageHash image'
        /\ cachedImagePath image (BlurManager.imageHash image)
           = cachedImagePath image' (BlurManager.imageHash image')
        /\ map (framePath (BlurManager.imageHash image))
             (animationFrames blurStrength animationDuration)
           = map (framePath (BlurManager.imageHash image'))
               (animationFrames blurStrength animationDuration))
  /\ (forall image image' : string,
        BlurManager.imageHash image = BlurManager.imageHash image' ->
        map (framePath (BlurManager.imageHash image))
          (animationFrames blurStrength animationDuration)
        = map (framePath (BlurManager.imageHash image'))
            (animationFrames blurStrength animationDuration)).
Proof.
  intros Hinit. destruct (init_returns _ _ _ _ _ _ Hinit) as (Houts & _).
  split; [|split; [|split]].
  - intros w' self' w1' Hinit'.
    destruct (init_returns _ _ _ _ _ _ Hinit') as (Houts' & _).
    destruct self as [outs], self' as [outs']. simpl in *. congruence.
  - intros name o Ho. rewrite Houts in Ho.
    apply configured_outputs_lookup in Ho.
    destruct Ho as [Ho|(cfg & image & Hin & Hi & ->)].
    + rewrite lookup_empty in Ho. discriminate.
    + exists cfg, image. auto.
  - intros image image' <-. auto.
  - intros image image' ->. reflexivity.
Qed.

End identity.

Lemma identity_from_path_witness :
  exists self w1,
    @BlurManager.__init__ ref_paths sample_configs 20 4 (sample_world fs_fresh blur_tool)
    = (Returns self, w1)
    /\ forall w' self' w1',
         @BlurManager.__init__ ref_paths sample_configs 20 4 w' = (Returns self', w1') ->
         self' = self.
Proof.
  assert (E : exists self w1,
             @BlurManager.__init__ ref_paths sample_configs 20 4 (sample_world fs_fresh blur_tool)
             = (Returns self, w1)).
  { eexists. eexists. vm_compute. reflexivity. }
  destruct E as (self & w1 & E). exists self, w1. split; [exact E|].
  exact (proj1 (@identity_from_path ref_paths sample_configs 20 4 self
                  (sample_world fs_fresh blur_tool) w1 E)).
Defined.

(** C10 as stated fails: two different path strings with the same
    identity (an MD5 collision of two ASCII texts), hence with the same
    frame paths. *)
Lemma identity_collision :
  collide_a <> collide_b
  /\ BlurManager.imageHash collide_a = BlurManager.imageHash collide_b
  /\ map (@framePath ref_paths (BlurManager.imageHash collide_a)) (animationFrames 20 4)
     = map (@framePath ref_paths (BlurManager.imageHash collide_b)) (animationFrames 20 4).
Proof.
  split; [discriminate|]. split; vm_compute; reflexivity.
Qed.

(** ** Generation and the cache *)

Section generation.
Context `{P : Paths}.

Lemma cache_events_no_pool (es : list event) (jobs : list (string * string * Z)) :
  Forall cache_event es -> ~ In (Starmap jobs) es.
Proof.
  intros Hes Hin. rewrite Forall_forall in Hes.
  apply list_elem_of_In in Hin. exact (Hes _ Hin).
Qed.

(** C5, as amended: in the body of the loop, for an output with a
    wallpaper, the pool of frame jobs is started if and only if the cache
    check answers false (a miss); when it answers true the output is
    registered and nothing else is done than logging and printing so,
    and what [filecmp] remembers of the comparison: the frame files are
    neither looked at nor written. *)
Theorem generation_iff_miss (frames : list Z) (outs : gmap string Output)
    (name image : string) (outputCfg : OutputCfg) (w : World) :
  image_of outputCfg = Some image ->
  exists es,
    w_trace (snd (BlurManager.configure frames outs name outputCfg w))
    = (w_trace w ++ es)%list
    /\ ((exists jobs, In (Starmap jobs) es)
        <-> fst (verifyWallpaperCache image (BlurManager.imageHash image) w) = Returns false)
    /\ (fst (verifyWallpaperCache image (BlurManager.imageHash image) w) = Returns true ->
        BlurManager.configure frames outs name outputCfg w
        = (Returns (<[name := output_of frames name image outputCfg]> outs),
           add_events
             [Log INFO ("wallpaper " ++ image ++ " is cached as "
                        ++ cachedImagePath image (BlurManager.imageHash image));
              Print ("Blurred wallpaper exists for " ++ name)]
             (set_cmp_cache
                (w_cmp_cache (snd (verifyWallpaperCache image (BlurManager.imageHash image) w)))
                w))).
Proof.
  intros Himg. rewrite (configure_image _ _ _ image) by exact Himg.
  destruct (acts_emits _ _ (acts_cache_verifyWallpaperCache image (BlurManager.imageHash image)) w)
    as (esv & Ev & Hv).
  destruct (verifyWallpaperCache image (BlurManager.imageHash image) w)
    as [[[|]|e| |] wv] eqn:Htrue; simpl in Ev |- *.
  - exists (esv ++ [Print ("Blurred wallpaper exists for " ++ name)])%list.
    rewrite Ev, <- app_assoc. split; [reflexivity|]. split.
    + split; [|discriminate]. intros (jobs & Hin). exfalso.
      apply in_app_or in Hin. destruct Hin as [Hin|[Hin|[]]]; [|discriminate].
      exact (cache_events_no_pool _ _ Hv Hin).
    + intros _. apply verifyWallpaperCache_true in Htrue. destruct Htrue as (cache & ->).
      unfold after_hit. rewrite !add_event_events, add_events_app. reflexivity.
  - match goal with
    | |- context [multiprocessing.run_jobs ?f ?js ?w0] =>
        destruct (acts_emits _ _ (acts_run_jobs setup_event f js
                    ltac:(intros [[? ?] ?]; apply acts_genBlurredImage)) w0)
          as (esj & Ej & _);
        destruct (multiprocessing.run_jobs f js w0) as [[[]|e| |] wj]
    end; simpl in Ej |- *;
      eexists; (split; [rewrite ?Ej; simpl; rewrite ?Ev, <- ?app_assoc; reflexivity|]);
      (split; [|discriminate]);
      (split; [reflexivity|]); intros _; eexists;
      apply in_or_app; right; apply in_or_app; left; right; right; left; reflexivity.
  - exists esv. split; [exact Ev|]. split; [|discriminate].
    split; [|discriminate]. intros (jobs & Hin). exfalso.
    exact (cache_events_no_pool _ _ Hv Hin).
  - exists esv. split; [exact Ev|]. split; [|discriminate].
    split; [|discriminate]. intros (jobs & Hin). exfalso.
    exact (cache_events_no_pool _ _ Hv Hin).
  - exists esv. split; [exact Ev|]. split; [|discriminate].
    split; [|discriminate]. intros (jobs & Hin). exfalso.
    exact (cache_events_no_pool _ _ Hv Hin).
Qed.

End generation.

Lemma generation_iff_miss_witness :
  @BlurManager.configure ref_paths (animationFrames 20 4) ∅ "eDP-1"
    (mkOutputCfg (Some wall) "nearest" "center" "fill") (sample_world fs_cached blur_tool)
  = (Returns {[ "eDP-1" := @output_of ref_paths (animationFrames 20 4) "eDP-1" wall
                             (mkOutputCfg (Some wall) "nearest" "center" "fill") ]},
     add_events
       [Log INFO ("wallpaper " ++ wall ++ " is cached as "
                  ++ @cachedImagePath ref_paths wall (BlurManager.imageHash wall));
        Print "Blurred wallpaper exists for eDP-1"]
       (set_cmp_cache
          (w_cmp_cache
             (snd (@verifyWallpaperCache ref_paths wall (BlurManager.imageHash wall)
                     (sample_world fs_cached blur_tool))))
          (sample_world fs_cached blur_tool))).
Proof.
  destruct (@generation_iff_miss ref_paths (animationFrames 20 4) ∅ "eDP-1" wall
              (mkOutputCfg (Some wall) "nearest" "center" "fill")
              (sample_world fs_cached blur_tool) eq_refl)
    as (es & _ & _ & Hhit).
  apply Hhit. vm_compute. reflexivity.
Defined.

(** C5 as stated fails: the wallpaper is cached, but the strength is now
    30 and no frame of the new schedule exists; the cache check hits,
    generation is skipped, no frame file is looked at, and the output goes
    on to the event loop with all four of its frames missing. *)
Lemma frames_not_verified :
  exists (self : BlurManager.t) (w1 : World) (o : Output),
    @BlurManager.__init__ ref_paths sample_configs 30 4 (sample_world fs_cached blur_tool)
    = (Returns self, w1)
    /\ w_trace w1
       = [Connect;
          Log INFO ("wallpaper " ++ wall ++ " is cached as " ++ wall_cached);
          Print "Blurred wallpaper exists for eDP-1";
          Log INFO "Output HDMI-A-1 has no wallpaper set"]
    /\ w_fs w1 = fs_cached
    /\ BlurManager.outputs self !! "eDP-1" = Some o
    /\ o_frames o = map (@framePath ref_paths wall_hash) [7; 14; 21; 28]
    /\ Forall (fun frame => w_fs w1 !! frame = None) (o_frames o)
    /\ fst (@BlurManager.startup ref_paths sample_configs 30 4 []
              (sample_world fs_cached blur_tool)) = Returns tt.
Proof.
  eexists. eexists. eexists.
  split; [apply run_eq; vm_compute; reflexivity|].
  split; [vm_compute; reflexivity|].
  split; [vm_compute; reflexivity|].
  split; [vm_compute; reflexivity|].
  split; [vm_compute; reflexivity|].
  split; [|vm_compute; reflexivity].
  vm_compute. repeat constructor.
Qed.

(** ** The filter that is missing, the filter that fails *)

(** without the filter the first job of a batch ends the batch *)
Lemma run_batch_missing (batch : list (string * string * Z)) (w : World) :
  w_convert w = Missing ->
  batch <> [] ->
  multiprocessing.run_batch BlurManager.run_job batch w
  = (Exits, add_events [Log ERROR imagemagick_message] w).
Proof.
  intros Hm Hne. destruct batch as [|[[i o] l] rest]; [congruence|].
  cbn [multiprocessing.run_batch BlurManager.run_job]. unfold bind.
  rewrite genBlurredImage_missing by exact Hm. reflexivity.
Qed.

Lemma run_batches_missing (batches : list (list (string * string * Z))) (w : World) :
  w_convert w = Missing ->
  Forall (fun batch => batch <> []) batches ->
  multiprocessing.run_batches BlurManager.run_job batches w
  = (match batches with [] => Returns tt | _ => WorkerLost end,
     add_events (map (fun _ => Log ERROR imagemagick_message) batches) w).
Proof.
  intros Hm Hne. revert w Hm. induction Hne as [|batch rest Hb _ IH]; intros w Hm.
  - simpl. unfold ret. rewrite add_events_nil. reflexivity.
  - simpl. rewrite run_batch_missing by assumption.
    rewrite IH by exact Hm. rewrite add_events_app. simpl.
    destruct rest; reflexivity.
Qed.

(** without the filter every batch of the pool is lost, each after one
    error line *)
Lemma run_jobs_missing (jobs : list (string * string * Z)) (w : World) :
  w_convert w = Missing ->
  exists batches,
    concat batches = jobs
    /\ multiprocessing.run_jobs BlurManager.run_job jobs w
       = (match batches with [] => Returns tt | _ => WorkerLost end,
          add_events (map (fun _ => Log ERROR imagemagick_message) batches) w).
Proof.
  intros Hm. destruct (run_jobs_batches BlurManager.run_job jobs w) as (batches & E & Hc & Hne).
  exists batches. split; [exact Hc|]. rewrite E. apply run_batches_missing; assumption.
Qed.

(** one worker and eight jobs: four batches of two, and four error lines *)
Example run_jobs_missing_batches :
  multiprocessing.run_jobs BlurManager.run_job
    (map (fun frame => ("/cache/w", "/cache/w-" ++ pretty.pretty frame, frame))
       (animationFrames 16 8))
    (mkWorld ∅ 0 Missing 1 ∅ [] None [])
  = (WorkerLost,
     add_events (repeat (Log ERROR imagemagick_message) 4) (mkWorld ∅ 0 Missing 1 ∅ [] None [])).
Proof. vm_compute. reflexivity. Qed.

Lemma unfiltered_error : unfiltered_event (Log ERROR imagemagick_message).
Proof. split; [reflexivity | simpl; tauto]. Qed.

Lemma unfiltered_print (msg : string) : unfiltered_event (Print msg).
Proof. split; [reflexivity | simpl; tauto]. Qed.

Lemma unfiltered_pool (jobs : list (string * string * Z)) : unfiltered_event (Starmap jobs).
Proof. split; [reflexivity | simpl; tauto]. Qed.

(** the events of a list are all [unfiltered_event]s *)
Ltac unfiltered :=
  repeat first
    [ assumption
    | exact I
    | apply Forall_nil
    | apply Forall_app; split
    | apply Forall_cons; split
    | apply unfiltered_print
    | apply unfiltered_pool
    | apply unfiltered_error
    | apply Forall_map, Forall_forall; intros ? _; apply unfiltered_error ].

(** the cases of an event that is in a trace *)
Ltac in_cases H :=
  repeat (rewrite in_app_iff in H); simpl in H;
  repeat match type of H with _ \/ _ => destruct H as [H|H] end.

Section missing.
Context `{P : Paths}.

#[local] Arguments add_events : simpl never.
#[local] Arguments set_fs : simpl never.
#[local] Arguments set_cmp_cache : simpl never.

(** the body of the loop without the filter: a pool that is given a job
    does not come back, and each of its batches has logged the error *)
Lemma configure_missing (frames : list Z) (outs : gmap string Output) (name : string)
    (outputCfg : OutputCfg) (w : World) :
  w_convert w = Missing ->
  exists fs cache es,
    snd (BlurManager.configure frames outs name outputCfg w)
    = add_events es (set_cmp_cache cache (set_fs fs w))
    /\ Forall unfiltered_event es
    /\ ((exists jobs, jobs <> [] /\ In (Starmap jobs) es) ->
        fst (BlurManager.configure frames outs name outputCfg w) = WorkerLost
        /\ In (Log ERROR imagemagick_message) es).
Proof.
  intros Hm. destruct (image_of outputCfg) as [image|] eqn:Himg.
  - rewrite (configure_image _ _ _ image) by exact Himg.
    destruct (acts_then _ _ w
                (acts_cache_verifyWallpaperCache image (BlurManager.imageHash image)))
      as (fsv & cv & esv & Ev & Hv).
    assert (Hu : Forall unfiltered_event esv)
      by (eapply Forall_impl; [exact Hv | apply cache_event_unfiltered]).
    destruct (verifyWallpaperCache image (BlurManager.imageHash image) w)
      as [[[|]|e| |] wv]; simpl in Ev; subst wv.
    + simpl. rewrite add_events_app. eexists _, _, _. split; [reflexivity|].
      split; [unfiltered|].
      intros (jobs & _ & Hin). exfalso. in_cases Hin;
        first [discriminate | exact (cache_events_no_pool _ _ Hv Hin) | destruct Hin].
    + rewrite add_events_app.
      set (jobs := BlurManager.jobs _ _ frames).
      match goal with
      | |- context [multiprocessing.run_jobs _ jobs ?w0] =>
          destruct (run_jobs_missing jobs w0 Hm) as (batches & Hcat & ->)
      end.
      rewrite add_events_app.
      destruct batches as [|batch batches']; simpl.
      * rewrite add_events_app. eexists _, _, _. split; [reflexivity|].
        split; [unfiltered|].
        intros (jobs0 & Hne & Hin). exfalso. simpl in Hcat. in_cases Hin;
          first [ discriminate
                | exact (cache_events_no_pool _ _ Hv Hin)
                | injection Hin as Hin; apply Hne; congruence
                | destruct Hin ].
      * rewrite ?add_events_app. eexists _, _, _. split; [reflexivity|].
        split; [unfiltered|].
        intros _. split; [reflexivity|].
        repeat rewrite in_app_iff. simpl. auto 10.
    + eexists _, _, _. split; [reflexivity|]. split; [exact Hu|].
      intros (jobs & _ & Hin). exfalso. exact (cache_events_no_pool _ _ Hv Hin).
    + eexists _, _, _. split; [reflexivity|]. split; [exact Hu|].
      intros (jobs & _ & Hin). exfalso. exact (cache_events_no_pool _ _ Hv Hin).
    + eexists _, _, _. split; [reflexivity|]. split; [exact Hu|].
      intros (jobs & _ & Hin). exfalso. exact (cache_events_no_pool _ _ Hv Hin).
  - rewrite configure_no_image by exact Himg. simpl.
    exists (w_fs w), (w_cmp_cache w), [Log INFO ("Output " ++ name ++ " has no wallpaper set")].
    rewrite set_fs_same, set_cmp_cache_same. split; [reflexivity|]. split.
    + repeat constructor. simpl. intros [o E]. discriminate.
    + intros (jobs & _ & [Hin|[]]). discriminate.
Qed.

End missing.

Section missing_startup.
Context `{P : Paths}.

#[local] Arguments add_events : simpl never.
#[local] Arguments set_fs : simpl never.
#[local] Arguments set_cmp_cache : simpl never.

Lemma configure_all_missing (frames : list Z) (outputConfigs : list (string * OutputCfg))
    (outs : gmap string Output) (w : World) :
  w_convert w = Missing ->
  exists fs cache es,
    snd (BlurManager.configure_all frames outputConfigs outs w)
    = add_events es (set_cmp_cache cache (set_fs fs w))
    /\ Forall unfiltered_event es
    /\ ((exists jobs, jobs <> [] /\ In (Starmap jobs) es) ->
        fst (BlurManager.configure_all frames outputConfigs outs w) = WorkerLost
        /\ In (Log ERROR imagemagick_message) es).
Proof.
  revert outs w. induction outputConfigs as [|[name cfg] rest IH]; intros outs w Hm.
  - exists (w_fs w), (w_cmp_cache w), []. simpl. rewrite touch_nothing.
    split; [reflexivity|]. split; [constructor|]. intros (jobs & _ & []).
  - cbn [BlurManager.configure_all]. unfold bind.
    destruct (configure_missing frames outs name cfg w Hm)
      as (fs1 & c1 & es1 & E1 & Hu1 & Hp1).
    destruct (BlurManager.configure frames outs name cfg w) as [[outs1|e| |] w1];
      cbn [fst snd] in *; subst w1.
    + destruct (IH outs1 (add_events es1 (set_cmp_cache c1 (set_fs fs1 w))) Hm)
        as (fs2 & c2 & es2 & E2 & Hu2 & Hp2).
      exists fs2, c2, (es1 ++ es2)%list. rewrite E2, touch_touch.
      split; [reflexivity|]. split; [apply Forall_app; auto|].
      intros (jobs & Hne & Hin). apply in_app_or in Hin. destruct Hin as [Hin|Hin].
      * destruct Hp1 as [Hp1 _]; [eauto | discriminate].
      * destruct Hp2 as [Hp2 Herr]; [eauto|]. split; [exact Hp2|].
        apply in_or_app. right. exact Herr.
    + exists fs1, c1, es1. auto.
    + exists fs1, c1, es1. auto.
    + exists fs1, c1, es1. auto.
Qed.

(** C4, as amended: when the filter executable is missing, a frame job
    logs the error diagnostic and calls [exit()]; a start-up that gives
    the pool at least one frame job then does not come back from the
    constructor, the diagnostic is in the log, nothing is reported
    generated and nothing is subscribed to.  When the executable is
    there, a frame job returns normally and reports the image generated
    whatever the return code of the filter. *)
Theorem missing_filter_stops_startup (outputConfigs : list (string * OutputCfg))
    (blurStrength animationDuration : Z) (stream : list (i3event * tree)) (w : World) :
  (w_convert w = Missing ->
   (forall inputPath outputPath blurLevel,
      genBlurredImage inputPath outputPath blurLevel w
      = (Exits, add_events [Log ERROR imagemagick_message] w))
   /\ exists es,
        w_trace (snd (BlurManager.startup outputConfigs blurStrength animationDuration stream w))
        = (w_trace w ++ es)%list
        /\ ((exists jobs, jobs <> [] /\ In (Starmap jobs) es) ->
            fst (BlurManager.startup outputConfigs blurStrength animationDuration stream w)
            = WorkerLost
            /\ In (Log ERROR imagemagick_message) es
            /\ Forall unfiltered_event es))
  /\ (forall run, w_convert w = Installed run ->
      forall inputPath outputPath blurLevel,
      exists w',
        genBlurredImage inputPath outputPath blurLevel w = (Returns tt, w')
        /\ w_trace w'
           = (w_trace w ++ [Run inputPath blurLevel outputPath;
                            Log INFO ("Generated image " ++ outputPath)])%list).
Proof.
  split.
  - intros Hm. split; [intros; apply genBlurredImage_missing; exact Hm|].
    unfold BlurManager.startup, BlurManager.__init__, bind, emit, ret.
    destruct (configure_all_missing (animationFrames blurStrength animationDuration)
                outputConfigs ∅ (add_event Connect w) Hm)
      as (fs & cache & es & E & Hu & Hp).
    destruct (BlurManager.configure_all _ _ _ _) as [[outs|e| |] w1];
      cbn [fst snd] in *; subst w1.
    + destruct (emits_start (BlurManager.mk outs) stream
                  (add_events es (set_cmp_cache cache (set_fs fs (add_event Connect w)))))
        as (esl & El & Hl).
      exists (Connect :: es ++ esl)%list. rewrite El.
      unfold add_events, set_cmp_cache, set_fs, add_event. cbn [w_trace].
      rewrite <- !app_assoc. split; [reflexivity|].
      intros (jobs & Hne & Hin). exfalso.
      destruct Hin as [Hin|Hin]; [discriminate|].
      apply in_app_or in Hin. destruct Hin as [Hin|Hin].
      * destruct Hp as [Hp _]; [eauto | discriminate].
      * rewrite Forall_forall in Hl. apply list_elem_of_In in Hin.
        specialize (Hl _ Hin). discriminate.
    + exists (Connect :: es). unfold add_events, set_cmp_cache, set_fs, add_event. cbn [w_trace].
      rewrite <- app_assoc. split; [reflexivity|].
      intros (jobs & Hne & [Hin|Hin]); [discriminate|].
      destruct Hp as [Hp _]; [eauto | discriminate].
    + exists (Connect :: es). unfold add_events, set_cmp_cache, set_fs, add_event. cbn [w_trace].
      rewrite <- app_assoc. split; [reflexivity|].
      intros (jobs & Hne & [Hin|Hin]); [discriminate|].
      destruct Hp as [Hp _]; [eauto | discriminate].
    + exists (Connect :: es). unfold add_events, set_cmp_cache, set_fs, add_event. cbn [w_trace].
      rewrite <- app_assoc. split; [reflexivity|].
      intros (jobs & Hne & [Hin|Hin]); [discriminate|].
      destruct Hp as [_ Herr]; [eauto|].
      split; [reflexivity|]. split; [right; exact Herr|].
      apply Forall_cons. split; [|exact Hu]. split; [reflexivity | simpl; tauto].
  - intros run Hi inputPath outputPath blurLevel.
    destruct (genBlurredImage_installed inputPath outputPath blurLevel w run Hi) as (fs & E & _).
    eexists. split; [exact E|]. reflexivity.
Qed.

End missing_startup.

Lemma missing_filter_stops_startup_witness :
  fst (@BlurManager.startup ref_paths sample_configs 20 4 [(WINDOW_NEW, tree_window)]
         (sample_world fs_fresh Missing)) = WorkerLost
  /\ exists w',
       genBlurredImage "/cache/w" "/cache/w-5" 5 (sample_world fs_fresh failing_tool)
       = (Returns tt, w').
Proof.
  split.
  - destruct (@missing_filter_stops_startup ref_paths sample_configs 20 4
                [(WINDOW_NEW, tree_window)] (sample_world fs_fresh Missing))
      as [Hmissing _].
    destruct (Hmissing eq_refl) as (_ & es & Et & Hstop).
    apply Hstop.
    exists (@BlurManager.jobs ref_paths wall_cached wall_hash (animationFrames 20 4)).
    split; [discriminate|].
    change (w_trace (sample_world fs_fresh Missing) ++ es)%list with es in Et.
    rewrite <- Et. vm_compute. auto 10.
  - destruct (@missing_filter_stops_startup ref_paths sample_configs 20 4 []
                (sample_world fs_fresh failing_tool))
      as [_ Hinstalled].
    destruct (Hinstalled _ eq_refl "/cache/w" "/cache/w-5" 5) as (w' & E & _).
    exists w'. exact E.
Defined.

(** C4 as stated fails: with a filter that fails on every frame and writes
    nothing, no error is logged, every job reports its image generated,
    the constructor returns and the event loop is entered, with an output
    none of whose frames exists. *)
Lemma failing_filter_not_fatal :
  exists (w' : World) (o : Output),
    @BlurManager.startup ref_paths sample_configs 20 4 [(WINDOW_NEW, tree_window)]
      (sample_world fs_fresh failing_tool)
    = (Returns tt, w')
    /\ In Main (w_trace w')
    /\ In (Invoke o m_blur) (w_trace w')
    /\ o_frames o = map (@framePath ref_paths wall_hash) [5; 10; 15; 20]
    /\ Forall (fun frame => w_fs w' !! frame = None) (o_frames o)
    /\ Forall (fun e => forall msg, e <> Log ERROR msg) (w_trace w')
    /\ In (Log INFO ("Generated image " ++ @framePath ref_paths wall_hash 5)) (w_trace w').
Proof.
  eexists. eexists.
  split; [vm_compute; reflexivity|].
  split; [vm_compute; auto 40|].
  split; [vm_compute; repeat first [left; reflexivity | right]|].
  split; [vm_compute; reflexivity|].
  split; [repeat constructor|].
  split; [repeat (constructor; [intros msg; discriminate|]); constructor|].
  vm_compute. auto 20.
Qed.

(* ===================================================================== *)
(** * Part III: further properties of the code                            *)
(* ===================================================================== *)

(** ** The schedule: bounds and the empty case *)

Lemma range_bounds (n i : Z) : In i (range n) -> 0 <= i < n.
Proof.
  unfold range. intros H. apply in_map_iff in H. destruct H as (k & <- & Hk).
  apply in_seq in Hk. lia.
Qed.

(** X1: with a strength that is not negative, every blur level of the
    schedule lies between 0 and the strength, whatever the duration. *)
Theorem animationFrames_levels (blurStrength animationDuration : Z) :
  0 <= blurStrength ->
  Forall (fun blurLevel => 0 <= blurLevel <= blurStrength)
    (animationFrames blurStrength animationDuration).
Proof.
  intros Hs. unfold animationFrames. apply Forall_map, Forall_forall.
  intros i Hi. apply list_elem_of_In, range_bounds in Hi. simpl.
  assert (Hq : 0 <= blurStrength / animationDuration) by (apply Z.div_pos; lia).
  assert (Hd : animationDuration * (blurStrength / animationDuration) <= blurStrength)
    by (apply Z.mul_div_le; lia).
  nia.
Qed.

Lemma animationFrames_levels_witness :
  Forall (fun blurLevel => 0 <= blurLevel <= 7) (animationFrames 7 3).
Proof. apply animationFrames_levels. lia. Defined.

Lemma animationFrames_empty (blurStrength animationDuration : Z) :
  animationDuration <= 0 -> animationFrames blurStrength animationDuration = [].
Proof.
  intros Hd. unfold animationFrames, range.
  replace (Z.to_nat animationDuration) with O by lia. reflexivity.
Qed.

(** ** The event phase: what is handled, what ends the loop *)

(** whatever the tree, the handler changes nothing but the trace *)
Lemma handleBlur_world (self : BlurManager.t) (w : World) :
  exists es, snd (BlurManager.handleBlur self w) = add_events es w.
Proof.
  destruct (w_tree w) as [[fw [ws|]]|] eqn:Ht.
  - destruct (con_output ws) as [name|] eqn:Hout.
    + destruct (BlurManager.outputs self !! name) as [o|] eqn:Ho.
      * rewrite (handleBlur_known self w fw ws name o Ht Hout Ho). eauto.
      * rewrite (handleBlur_unknown self w fw ws name Ht Hout Ho). eauto.
    + exists [GetTree]. unfold BlurManager.handleBlur, bind, emit, raise. simpl.
      rewrite Ht, Hout. reflexivity.
  - exists [GetTree]. unfold BlurManager.handleBlur, bind, emit, raise. simpl.
    rewrite Ht. reflexivity.
  - exists [GetTree]. unfold BlurManager.handleBlur, bind, emit, raise. simpl.
    rewrite Ht. reflexivity.
Qed.

(** on a tree that does not resolve the handler raises, having only
    queried the tree *)
Lemma handleBlur_unresolved (self : BlurManager.t) (w : World) :
  ~ resolves (w_tree w) ->
  BlurManager.handleBlur self w
  = (Raises (tree_error (w_tree w)), add_events [GetTree] w).
Proof.
  intros Hno. unfold BlurManager.handleBlur, bind, emit, raise. simpl.
  destruct (w_tree w) as [[fw [ws|]]|] eqn:Ht; simpl; try reflexivity.
  destruct (con_output ws) as [name|] eqn:Hout; [|reflexivity].
  exfalso. apply Hno. exists fw, ws, name. auto.
Qed.

Lemma handleBlur_resolved (self : BlurManager.t) (w : World) :
  resolves (w_tree w) -> fst (BlurManager.handleBlur self w) = Returns tt.
Proof.
  intros (fw & ws & name & Ht & Hout).
  destruct (BlurManager.outputs self !! name) as [o|] eqn:Ho.
  - rewrite (handleBlur_known self w fw ws name o Ht Hout Ho). reflexivity.
  - rewrite (handleBlur_unknown self w fw ws name Ht Hout Ho). reflexivity.
Qed.

Lemma handleBlur_events (self : BlurManager.t) (w : World) :
  snd (BlurManager.handleBlur self w) = add_events (handler_events self (w_tree w)) w.
Proof.
  unfold handler_events.
  destruct (w_tree w) as [[fw [ws|]]|] eqn:Ht.
  - destruct (con_output ws) as [name|] eqn:Hout.
    + destruct (BlurManager.outputs self !! name) as [o|] eqn:Ho.
      * rewrite (handleBlur_known self w fw ws name o Ht Hout Ho). reflexivity.
      * rewrite (handleBlur_unknown self w fw ws name Ht Hout Ho). reflexivity.
    + rewrite handleBlur_unresolved; [reflexivity|].
      rewrite Ht. intros (? & ? & ? & [= <- <-] & Hout'). congruence.
  - rewrite handleBlur_unresolved; [reflexivity|].
    rewrite Ht. intros (? & ? & ? & [=] & _).
  - rewrite handleBlur_unresolved; [reflexivity|].
    rewrite Ht. intros (? & ? & ? & [=] & _).
Qed.

Lemma resolvesb_resolves (t : tree) : resolvesb t = true <-> resolves t.
Proof.
  split.
  - destruct t as [[fw [ws|]]|]; simpl; try discriminate.
    destruct (con_output ws) as [name|] eqn:Hout; [|discriminate].
    intros _. exists fw, ws, name. auto.
  - intros (fw & ws & name & -> & Hout). simpl. rewrite Hout. reflexivity.
Qed.

(** how the handler ends, by the tree *)
Lemma handleBlur_outcome (self : BlurManager.t) (w : World) :
  fst (BlurManager.handleBlur self w)
  = if resolvesb (w_tree w) then Returns tt else Raises (tree_error (w_tree w)).
Proof.
  destruct (resolvesb (w_tree w)) eqn:E.
  - apply handleBlur_resolved, resolvesb_resolves. exact E.
  - rewrite handleBlur_unresolved; [reflexivity|].
    intros H. apply resolvesb_resolves in H. congruence.
Qed.

(** X2: the handler returns normally exactly when the tree has a focused
    container, with a workspace, that names its output; otherwise it raises
    [AttributeError] ([KeyError] when only the output entry is missing)
    right after the tree query, and a loop that hands it such an event of a
    subscribed kind ends there: the events that follow are never handled,
    whatever they are. *)
Theorem handleBlur_returns_iff (self : BlurManager.t) (ev : i3event) (t : tree)
    (rest : list (i3event * tree)) (w : World) :
  (fst (BlurManager.handleBlur self (set_tree t w)) = Returns tt <-> resolves t)
  /\ (~ resolves t ->
      BlurManager.handleBlur self (set_tree t w)
      = (Raises (tree_error t), add_events [GetTree] (set_tree t w))
      /\ (ev ∈ w_subs w ->
          BlurManager.listen self ((ev, t) :: rest) w
          = (Raises (tree_error t), add_events [GetTree] (set_tree t w)))).
Proof.
  split.
  - split.
    + intros Hret. destruct t as [[fw [ws|]]|]; try discriminate.
      destruct (con_output ws) as [name|] eqn:Hout.
      * exists fw, ws, name. auto.
      * rewrite handleBlur_unresolved in Hret; [discriminate|].
        intros (? & ? & ? & [= <- <-] & Hout'). simpl in Hout'. congruence.
    + intros Hres. apply handleBlur_resolved. exact Hres.
  - intros Hno.
    assert (H : BlurManager.handleBlur self (set_tree t w)
                = (Raises (tree_error t), add_events [GetTree] (set_tree t w)))
      by (apply (handleBlur_unresolved self (set_tree t w)); exact Hno).
    split; [exact H|].
    intros Hev. rewrite listen_subscribed by exact Hev.
    unfold bind at 1. rewrite H. reflexivity.
Qed.

Lemma handleBlur_returns_iff_witness :
  BlurManager.listen sample_manager
    [(WINDOW_MOVE, Some (win12, None)); (WINDOW_NEW, tree_window)]
    (listening_world tree_empty)
  = (Raises AttributeError, add_events [GetTree] (listening_world (Some (win12, None)))).
Proof.
  refine (proj2 (proj2 (handleBlur_returns_iff sample_manager WINDOW_MOVE
                          (Some (win12, None)) [(WINDOW_NEW, tree_window)]
                          (listening_world tree_empty)) _) _).
  - intros (fw & ws & name & E & _). discriminate.
  - vm_compute. repeat constructor.
Defined.

(** *** Events of other kinds *)

Lemma listen_not_subscribed (self : BlurManager.t) (ev : i3event) (t : tree)
    (rest : list (i3event * tree)) (w : World) :
  ev ∉ w_subs w ->
  BlurManager.listen self ((ev, t) :: rest) w = BlurManager.listen self rest (set_tree t w).
Proof.
  intros Hev. simpl. unfold bind at 1. rewrite bool_decide_false by exact Hev.
  reflexivity.
Qed.

Lemma same_but_tree_set (t : tree) (w w' : World) :
  same_but_tree w w' -> set_tree t w = set_tree t w'.
Proof.
  unfold same_but_tree, set_tree. intros H. injection H. intros. f_equal; assumption.
Qed.

Lemma same_but_tree_refl (w : World) : same_but_tree w w.
Proof. reflexivity. Qed.

Lemma same_but_tree_trans (w1 w2 w3 : World) :
  same_but_tree w1 w2 -> same_but_tree w2 w3 -> same_but_tree w1 w3.
Proof. unfold same_but_tree. congruence. Qed.

Lemma same_but_tree_set_l (t : tree) (w : World) : same_but_tree (set_tree t w) w.
Proof. reflexivity. Qed.

Lemma listen_cons (self : BlurManager.t) (ev : i3event) (t : tree)
    (rest : list (i3event * tree)) (w : World) :
  BlurManager.listen self ((ev, t) :: rest) w
  = (if bool_decide (ev ∈ w_subs w)
     then (BlurManager.handleBlur self ;; BlurManager.listen self rest)
     else BlurManager.listen self rest) (set_tree t w).
Proof.
  destruct (decide (ev ∈ w_subs w)) as [Hev|Hev].
  - rewrite (bool_decide_true _ Hev). apply listen_subscribed. exact Hev.
  - rewrite (bool_decide_false _ Hev). apply listen_not_subscribed. exact Hev.
Qed.

(** the loop does not look at the tree it starts from *)
Lemma listen_same_but_tree (self : BlurManager.t) (stream : list (i3event * tree))
    (w w' : World) :
  same_but_tree w w' ->
  fst (BlurManager.listen self stream w) = fst (BlurManager.listen self stream w')
  /\ same_but_tree (snd (BlurManager.listen self stream w))
       (snd (BlurManager.listen self stream w')).
Proof.
  intros Hs. destruct stream as [|[ev t] rest].
  - simpl. auto.
  - assert (Hsubs : w_subs w = w_subs w').
    { unfold same_but_tree, set_tree in Hs. injection Hs. auto. }
    rewrite !listen_cons, Hsubs, (same_but_tree_set t w w' Hs).
    split; [reflexivity | apply same_but_tree_refl].
Qed.

Lemma handleBlur_subs (self : BlurManager.t) (w : World) :
  w_subs (snd (BlurManager.handleBlur self w)) = w_subs w.
Proof. destruct (handleBlur_world self w) as (es & ->). reflexivity. Qed.

Lemma listen_filter (self : BlurManager.t) (stream : list (i3event * tree)) (w : World) :
  fst (BlurManager.listen self stream w)
  = fst (BlurManager.listen self (filter (fun p => fst p ∈ w_subs w) stream) w)
  /\ same_but_tree
       (snd (BlurManager.listen self stream w))
       (snd (BlurManager.listen self (filter (fun p => fst p ∈ w_subs w) stream) w)).
Proof.
  revert w. induction stream as [|[ev t] rest IH]; intros w.
  - simpl. auto using same_but_tree_refl.
  - destruct (decide (ev ∈ w_subs w)) as [Hev|Hev].
    + rewrite filter_cons_True by exact Hev.
      rewrite !listen_subscribed by exact Hev. unfold bind.
      pose proof (handleBlur_subs self (set_tree t w)) as Hsubs.
      destruct (BlurManager.handleBlur self (set_tree t w)) as [[[]|e| |] w1];
        simpl in Hsubs |- *; auto using same_but_tree_refl.
      specialize (IH w1). rewrite Hsubs in IH. exact IH.
    + rewrite filter_cons_False by exact Hev.
      rewrite listen_not_subscribed by exact Hev.
      destruct (IH (set_tree t w)) as [IH1 IH2]. simpl in IH1, IH2.
      destruct (listen_same_but_tree self (filter (fun p => fst p ∈ w_subs w) rest)
                  (set_tree t w) w (same_but_tree_set_l t w)) as [H1 H2].
      split; [congruence | eapply same_but_tree_trans; eauto].
Qed.

(** the loop, event by event: the events of a subscribed kind are handed
    to the handler in the order of the stream, until one makes it raise *)
Lemma listen_handled (self : BlurManager.t) (stream : list (i3event * tree)) (w : World) :
  fst (BlurManager.listen self stream w)
  = loop_outcome (map snd (filter (fun p => fst p ∈ w_subs w) stream))
  /\ w_trace (snd (BlurManager.listen self stream w))
     = (w_trace w
        ++ concat (map (handler_events self)
                     (handled_trees (map snd (filter (fun p => fst p ∈ w_subs w) stream)))))%list.
Proof.
  revert w. induction stream as [|[ev t] rest IH]; intros w.
  - simpl. rewrite app_nil_r. auto.
  - destruct (decide (ev ∈ w_subs w)) as [Hev|Hev].
    + rewrite filter_cons_True by exact Hev.
      rewrite listen_subscribed by exact Hev. unfold bind.
      pose proof (handleBlur_events self (set_tree t w)) as Hes.
      pose proof (handleBlur_outcome self (set_tree t w)) as Hout.
      destruct (BlurManager.handleBlur self (set_tree t w)) as [r w1].
      cbn [fst snd w_tree set_tree] in Hes, Hout. subst r w1.
      cbn [map handled_trees loop_outcome fst snd].
      destruct (resolvesb t).
      * destruct (IH (add_events (handler_events self t) (set_tree t w))) as [IH1 IH2].
        cbn [w_subs add_events set_tree w_trace] in IH1, IH2.
        rewrite IH1, IH2. cbn [map concat]. rewrite <- app_assoc. auto.
      * cbn [fst snd map concat w_trace add_events set_tree]. rewrite app_nil_r. auto.
    + rewrite filter_cons_False by exact Hev.
      rewrite listen_not_subscribed by exact Hev.
      exact (IH (set_tree t w)).
Qed.

(** X3: the loop of [start] handles the events of the four kinds it has
    subscribed to and no other.  Started with no earlier subscription, it
    ends the same way, with the same trace and the same files, as on the
    stream from which the events of every other kind are removed; and
    every event of the four kinds is handed to the handler, in the order
    of the stream, until one makes the handler raise: the trace of [start]
    is the line it prints, the four subscriptions, the loop, and then what
    the handler does for the tree of each of these events. *)
Theorem start_handles_its_kinds (self : BlurManager.t) (stream : list (i3event * tree))
    (w : World) :
  w_subs w = [] ->
  let handled := filter (fun p => fst p ∈ handled_kinds) stream in
  fst (BlurManager.start self stream w) = fst (BlurManager.start self handled w)
  /\ w_trace (snd (BlurManager.start self stream w))
     = w_trace (snd (BlurManager.start self handled w))
  /\ w_fs (snd (BlurManager.start self stream w))
     = w_fs (snd (BlurManager.start self handled w))
  /\ fst (BlurManager.start self stream w) = loop_outcome (map snd handled)
  /\ w_trace (snd (BlurManager.start self stream w))
     = (w_trace w
        ++ [Print "Listening..."; On WINDOW_NEW; On WINDOW_CLOSE; On WINDOW_MOVE;
            On WORKSPACE_FOCUS; Main]
        ++ concat (map (handler_events self) (handled_trees (map snd handled))))%list.
Proof.
  intros Hsubs handled. rewrite !start_listens, Hsubs.
  match goal with
  | |- context [BlurManager.listen self stream ?w0] =>
      destruct (listen_filter self stream w0) as [H1 H2];
      destruct (listen_handled self stream w0) as [H3 H4]
  end.
  change (filter _ stream) with handled in H1, H2, H3, H4.
  split; [exact H1|].
  unfold same_but_tree, set_tree in H2. injection H2 as Hfs _ _ _ _ _ Htr.
  split; [exact Htr|]. split; [exact Hfs|]. split; [exact H3|].
  rewrite H4. cbn [w_trace add_events set_subs]. rewrite <- app_assoc. reflexivity.
Qed.

Lemma start_handles_its_kinds_witness :
  w_trace (snd (BlurManager.start sample_manager
                  [(WINDOW_FOCUS, tree_no_focus); (WINDOW_NEW, tree_window);
                   (WINDOW_TITLE, tree_no_focus); (WORKSPACE_FOCUS, tree_empty)]
                  (sample_world ∅ Missing)))
  = [Print "Listening..."; On WINDOW_NEW; On WINDOW_CLOSE; On WINDOW_MOVE;
     On WORKSPACE_FOCUS; Main;
     GetTree; Invoke eDP m_blur;
     SetBackground "eDP-1" "/cache/f1"; SetBackground "eDP-1" "/cache/f2";
     GetTree; Invoke eDP m_unblur;
     SetBackground "eDP-1" "/cache/f2"; SetBackground "eDP-1" "/cache/f1"].
Proof.
  pose proof (start_handles_its_kinds sample_manager
                [(WINDOW_FOCUS, tree_no_focus); (WINDOW_NEW, tree_window);
                 (WINDOW_TITLE, tree_no_focus); (WORKSPACE_FOCUS, tree_empty)]
                (sample_world ∅ Missing) eq_refl) as (_ & _ & _ & _ & H).
  rewrite H. vm_compute. reflexivity.
Defined.

(** *** The files during the event phase *)

Lemma listen_world (self : BlurManager.t) (stream : list (i3event * tree)) (w : World) :
  exists es t, snd (BlurManager.listen self stream w) = add_events es (set_tree t w).
Proof.
  revert w. induction stream as [|[ev t] rest IH]; intros w.
  - exists [], (w_tree w). simpl. rewrite add_events_nil. destruct w. reflexivity.
  - rewrite listen_cons. destruct (bool_decide (ev ∈ w_subs w)).
    + unfold bind. destruct (handleBlur_world self (set_tree t w)) as (es1 & E1).
      destruct (BlurManager.handleBlur self (set_tree t w)) as [[[]|e| |] w1];
        simpl in E1; subst w1; simpl; eauto.
      destruct (IH (add_events es1 (set_tree t w))) as (es2 & t2 & E2).
      exists (es1 ++ es2)%list, t2. rewrite E2.
      unfold add_events, set_tree. simpl. rewrite <- app_assoc. reflexivity.
    + destruct (IH (set_tree t w)) as (es2 & t2 & E2).
      exists es2, t2. rewrite E2. reflexivity.
Qed.

(** X4: the event phase never writes a file and never touches the
    filter: however [start] ends, and whatever the events, the files are
    those it found, the subscriptions are those of before followed by the
    four kinds of [start], and no copy, filter run or pool is among its
    events. *)
Theorem start_keeps_files (self : BlurManager.t) (stream : list (i3event * tree))
    (w : World) :
  w_fs (snd (BlurManager.start self stream w)) = w_fs w
  /\ w_convert (snd (BlurManager.start self stream w)) = w_convert w
  /\ w_subs (snd (BlurManager.start self stream w)) = (w_subs w ++ handled_kinds)%list
  /\ exists es,
       w_trace (snd (BlurManager.start self stream w)) = (w_trace w ++ es)%list
       /\ Forall (fun e => is_generation e = false) es.
Proof.
  destruct (emits_start self stream w) as (es & Et & Hes).
  rewrite start_listens in *.
  match goal with
  | |- context [BlurManager.listen self stream ?w0] =>
      destruct (listen_world self stream w0) as (es' & t & E)
  end.
  rewrite E in *. repeat split; eauto.
Qed.

(** ** The cache check: failure, footprint, what holds afterwards *)

Section cache_more.
Context `{P : Paths}.

(** the check without the source, case by case *)
Lemma verifyWallpaperCache_no_source_world (W h : string) (w : World) :
  w_fs w !! W = None ->
  verifyWallpaperCache W h w
  = (Raises FileNotFoundError,
     if bool_decide (is_Some (w_fs w !! cachedImagePath W h)) then w
     else add_event
            (Log INFO ("wallpaper " ++ W ++ " added to the cache as " ++ cachedImagePath W h))
            w).
Proof.
  intros HW. unfold verifyWallpaperCache, bind, paths.exists_.
  destruct (bool_decide (is_Some (w_fs w !! cachedImagePath W h))).
  - unfold filecmp.cmp, os.stat, bind. rewrite HW. reflexivity.
  - unfold ret, logging.info, emit, shutil.copy. simpl. rewrite HW. reflexivity.
Qed.

(** X5: the cache check raises exactly when there is no file at the
    wallpaper path, and then [FileNotFoundError]; it leaves the files as
    they are, but when there is no cached copy either it has already
    logged that the wallpaper was "added to the cache". *)
Theorem verifyWallpaperCache_raises_iff (W h : string) (w : World) :
  (w_fs w !! W = None <-> exists e, fst (verifyWallpaperCache W h w) = Raises e)
  /\ (w_fs w !! W = None ->
      fst (verifyWallpaperCache W h w) = Raises FileNotFoundError
      /\ w_fs (snd (verifyWallpaperCache W h w)) = w_fs w
      /\ w_trace (snd (verifyWallpaperCache W h w))
         = (w_trace w ++
            if bool_decide (is_Some (w_fs w !! cachedImagePath W h)) then []
            else [Log INFO ("wallpaper " ++ W ++ " added to the cache as "
                            ++ cachedImagePath W h)])%list).
Proof.
  split.
  - split.
    + intros HW. rewrite verifyWallpaperCache_no_source_world by exact HW. eauto.
    + intros [e He]. destruct (w_fs w !! W) as [f|] eqn:HW; [|reflexivity].
      destruct (verifyWallpaperCache_returns W h w f HW) as [(cache & E & _)|(cache & E)];
        rewrite E in He; discriminate.
  - intros HW. rewrite verifyWallpaperCache_no_source_world by exact HW.
    destruct (bool_decide _); simpl; rewrite ?app_nil_r; auto.
Qed.

Lemma verifyWallpaperCache_other (W h : string) (w : World) :
  (forall path, path <> cachedImagePath W h ->
     w_fs (snd (verifyWallpaperCache W h w)) !! path = w_fs w !! path)
  /\ w_fs (snd (verifyWallpaperCache W h w)) !! W = w_fs w !! W.
Proof.
  destruct (w_fs w !! W) as [f|] eqn:HW.
  - destruct (verifyWallpaperCache_returns W h w f HW) as [(cache & E & _)|(cache & E)].
    + rewrite E. simpl. rewrite HW. auto.
    + assert (Hne : W <> cachedImagePath W h).
      { intros Heq. rewrite (verifyWallpaperCache_run W h w f HW) in E.
        rewrite <- Heq in E. rewrite HW in E.
        rewrite cmp_files_shallow in E by reflexivity. simpl in E. discriminate. }
      rewrite E. simpl. split.
      * intros path Hp. apply lookup_insert_ne. congruence.
      * rewrite lookup_insert_ne by congruence. exact HW.
  - rewrite verifyWallpaperCache_no_source_world by exact HW.
    destruct (bool_decide _); simpl; rewrite ?HW; auto.
Qed.

(** X6: the cache check writes at most one file, the cached copy: every
    other path, and the wallpaper itself, holds after the check what it
    held before, however the check ends. *)
Theorem verifyWallpaperCache_footprint (W h : string) (w : World) :
  (forall path, path <> cachedImagePath W h ->
     w_fs (snd (verifyWallpaperCache W h w)) !! path = w_fs w !! path)
  /\ w_fs (snd (verifyWallpaperCache W h w)) !! W = w_fs w !! W.
Proof. exact (verifyWallpaperCache_other W h w). Qed.



End cache_more.

Lemma verifyWallpaperCache_raises_iff_witness :
  fst (@verifyWallpaperCache ref_paths wall wall_hash (sample_world ∅ Missing))
  = Raises FileNotFoundError
  /\ w_trace (snd (@verifyWallpaperCache ref_paths wall wall_hash (sample_world ∅ Missing)))
     = [Log INFO ("wallpaper " ++ wall ++ " added to the cache as " ++ wall_cached)].
Proof.
  pose proof (@verifyWallpaperCache_raises_iff ref_paths wall wall_hash
                (sample_world ∅ Missing)) as [_ H].
  destruct H as (H1 & _ & H3); [vm_compute; reflexivity|].
  split; [exact H1 | exact H3].
Defined.


Lemma verifyWallpaperCache_footprint_witness :
  w_fs (snd (@verifyWallpaperCache ref_paths wall wall_hash (sample_world fs_fresh Missing)))
    !! "/home/u/other.png"
  = None.
Proof.
  pose proof (@verifyWallpaperCache_footprint ref_paths wall wall_hash
                (sample_world fs_fresh Missing)) as [H _].
  rewrite (H "/home/u/other.png") by discriminate.
  vm_compute. reflexivity.
Defined.

(** ** The constructor: which outputs, which files *)

Section init_more.
Context `{P : Paths}.

Lemma configured_outputs_other (frames : list Z) (outputConfigs : list (string * OutputCfg))
    (outs : gmap string Output) (name : string) :
  ~ In name (map fst outputConfigs) ->
  configured_outputs frames outputConfigs outs !! name = outs !! name.
Proof.
  revert outs. induction outputConfigs as [|[n cfg] rest IH]; intros outs Hno.
  - reflexivity.
  - simpl in Hno |- *. rewrite IH by tauto.
    destruct (image_of cfg); [|reflexivity].
    apply lookup_insert_ne. tauto.
Qed.

Lemma configured_outputs_unique (frames : list Z) (outputConfigs : list (string * OutputCfg))
    (outs : gmap string Output) (name : string) (outputCfg : OutputCfg) :
  List.NoDup (map fst outputConfigs) ->
  In (name, outputCfg) outputConfigs ->
  configured_outputs frames outputConfigs outs !! name
  = match image_of outputCfg with
    | Some image => Some (output_of frames name image outputCfg)
    | None => outs !! name
    end.
Proof.
  revert outs. induction outputConfigs as [|[n cfg] rest IH]; intros outs Hnd Hin.
  - destruct Hin.
  - simpl in Hnd. apply List.NoDup_cons_iff in Hnd. destruct Hnd as [Hn Hnd].
    destruct Hin as [Heq|Hin].
    + injection Heq as -> ->. simpl.
      rewrite configured_outputs_other by exact Hn.
      destruct (image_of outputCfg); [apply lookup_insert_eq | reflexivity].
    + simpl. rewrite (IH _ Hnd Hin).
      destruct (image_of outputCfg); [reflexivity|].
      destruct (image_of cfg); [|reflexivity].
      apply lookup_insert_ne. intros ->. apply Hn.
      apply in_map_iff. exists (name, outputCfg). auto.
Qed.

(** X8: when the constructor returns, and no name is configured twice
    (the configuration is a dictionary), [self.outputs] holds exactly the
    configured names that have a wallpaper: each of them with the [Output]
    built from its own entry, and nothing for a name whose image is unset
    or empty, or that is not configured. *)
Theorem init_registers (outputConfigs : list (string * OutputCfg))
    (blurStrength animationDuration : Z) (self : BlurManager.t) (w w1 : World) :
  List.NoDup (map fst outputConfigs) ->
  BlurManager.__init__ outputConfigs blurStrength animationDuration w = (Returns self, w1) ->
  (forall name outputCfg,
     In (name, outputCfg) outputConfigs ->
     BlurManager.outputs self !! name
     = (fun image => output_of (animationFrames blurStrength animationDuration)
                       name image outputCfg) <$> image_of outputCfg)
  /\ (forall name, ~ In name (map fst outputConfigs) ->
        BlurManager.outputs self !! name = None).
Proof.
  intros Hnd Hinit. destruct (init_returns _ _ _ _ _ _ Hinit) as (-> & _). split.
  - intros name cfg Hin. rewrite (configured_outputs_unique _ _ _ _ cfg Hnd Hin).
    destruct (image_of cfg); reflexivity.
  - intros name Hno. rewrite configured_outputs_other by exact Hno. apply lookup_empty.
Qed.

End init_more.

Lemma init_registers_witness :
  exists self w1,
    @BlurManager.__init__ ref_paths sample_configs 20 4 (sample_world fs_fresh blur_tool)
    = (Returns self, w1)
    /\ BlurManager.outputs self !! "HDMI-A-1" = None
    /\ BlurManager.outputs self !! "DP-2" = None.
Proof.
  assert (E : exists self w1,
             @BlurManager.__init__ ref_paths sample_configs 20 4 (sample_world fs_fresh blur_tool)
             = (Returns self, w1)).
  { eexists. eexists. vm_compute. reflexivity. }
  destruct E as (self & w1 & E). exists self, w1. split; [exact E|].
  assert (Hnd : List.NoDup (map fst sample_configs)).
  { simpl. repeat constructor; simpl; intuition discriminate. }
  destruct (@init_registers ref_paths sample_configs 20 4 self _ w1 Hnd E) as [Hin Hout].
  split.
  - exact (Hin "HDMI-A-1" (mkOutputCfg None "" "" "") (or_intror (or_introl eq_refl))).
  - apply Hout. simpl. intuition discriminate.
Defined.

(** ** The files of the constructor *)

Lemma keeps_files_ret {A} (a : A) : keeps_files (ret a).
Proof. intros w path H. exact H. Qed.

Lemma keeps_files_emit (e : event) : keeps_files (emit e).
Proof. intros w path H. exact H. Qed.

Lemma keeps_files_bind {A B} (m : M A) (k : A -> M B) :
  keeps_files m -> (forall a, keeps_files (k a)) -> keeps_files (bind m k).
Proof.
  intros Hm Hk w path H. unfold bind. specialize (Hm w path H).
  destruct (m w) as [[a|e| |] w1]; simpl in *; auto.
  apply Hk. exact Hm.
Qed.

Lemma keeps_files_insert {A} (m : M A) :
  (forall w, exists fs,
     w_fs (snd (m w)) = fs
     /\ (fs = w_fs w \/ exists path file, fs = <[path := file]> (w_fs w))) ->
  keeps_files m.
Proof.
  intros Hm w path H. destruct (Hm w) as (fs & -> & [->|(p & file & ->)]); [exact H|].
  destruct (decide (p = path)) as [->|Hne].
  - rewrite lookup_insert_eq. eauto.
  - rewrite lookup_insert_ne by exact Hne. exact H.
Qed.

Lemma keeps_files_genBlurredImage (inputPath outputPath : string) (blurLevel : Z) :
  keeps_files (genBlurredImage inputPath outputPath blurLevel).
Proof.
  apply keeps_files_insert. intros w. destruct (w_convert w) as [|run] eqn:Hc.
  - rewrite genBlurredImage_missing by exact Hc. simpl. eauto.
  - destruct (genBlurredImage_installed inputPath outputPath blurLevel w run Hc)
      as (fs & -> & ->). simpl. eexists. split; [reflexivity|].
    destruct (snd (run _ _)); eauto.
Qed.

Lemma keeps_files_run_jobs (jobs : list (string * string * Z)) :
  keeps_files (multiprocessing.run_jobs BlurManager.run_job jobs).
Proof.
  intros w path H. revert H.
  apply (run_jobs_preserves BlurManager.run_job
           (fun w w' => is_Some (w_fs w !! path) -> is_Some (w_fs w' !! path))); auto.
  intros [[i o] l] w0 _. apply keeps_files_genBlurredImage.
Qed.

Section files.
Context `{P : Paths}.

Lemma keeps_files_verifyWallpaperCache (W h : string) :
  keeps_files (verifyWallpaperCache W h).
Proof.
  apply keeps_files_insert. intros w. eexists. split; [reflexivity|].
  destruct (w_fs w !! W) as [f|] eqn:HW.
  - destruct (verifyWallpaperCache_returns W h w f HW) as [(cache & E & _)|(cache & E)];
      rewrite E; simpl; eauto.
  - destruct (verifyWallpaperCache_no_source W h w HW) as (w' & E & Hfs & _).
    rewrite E. simpl. auto.
Qed.

Lemma keeps_files_configure (frames : list Z) (outs : gmap string Output) (name : string)
    (outputCfg : OutputCfg) :
  keeps_files (BlurManager.configure frames outs name outputCfg).
Proof.
  unfold BlurManager.configure, logging.info, print, multiprocessing.Pool_starmap.
  destruct (image_of outputCfg) as [image|].
  - apply keeps_files_bind; [apply keeps_files_verifyWallpaperCache|]. intros [|]; simpl.
    + apply keeps_files_bind; [apply keeps_files_emit | intros; apply keeps_files_ret].
    + repeat (apply keeps_files_bind; [apply keeps_files_emit | intros _]).
      apply keeps_files_bind; [apply keeps_files_run_jobs | intros _].
      apply keeps_files_bind; [apply keeps_files_emit | intros; apply keeps_files_ret].
  - apply keeps_files_bind; [apply keeps_files_emit | intros; apply keeps_files_ret].
Qed.

Lemma keeps_files_configure_all (frames : list Z) (outputConfigs : list (string * OutputCfg))
    (outs : gmap string Output) :
  keeps_files (BlurManager.configure_all frames outputConfigs outs).
Proof.
  revert outs. induction outputConfigs as [|[name cfg] rest IH]; intros outs.
  - apply keeps_files_ret.
  - simpl. apply keeps_files_bind; [apply keeps_files_configure | intros; apply IH].
Qed.

(** a body that returns leaves the wallpaper and its cached copy in place *)
Lemma configure_leaves_wallpaper (frames : list Z) (outs outs1 : gmap string Output)
    (name image : string) (outputCfg : OutputCfg) (w w1 : World) :
  image_of outputCfg = Some image ->
  BlurManager.configure frames outs name outputCfg w = (Returns outs1, w1) ->
  is_Some (w_fs w1 !! image)
  /\ is_Some (w_fs w1 !! cachedImagePath image (BlurManager.imageHash image)).
Proof.
  intros Himg Hret.
  pose proof (keeps_files_configure frames outs name outputCfg w) as Hkeep.
  rewrite Hret in Hkeep. simpl in Hkeep.
  rewrite (configure_image _ _ _ image) in Hret by exact Himg.
  destruct (w_fs w !! image) as [f|] eqn:HW.
  - split; [apply Hkeep; rewrite HW; eauto|].
    destruct (verifyWallpaperCache_returns image (BlurManager.imageHash image) w f HW)
      as [(cache & E & Hc)|(cache & E)]; rewrite E in Hret.
    + injection Hret as _ <-. exact Hc.
    + match type of Hret with
      | context [multiprocessing.run_jobs ?f ?js ?w0] =>
          pose proof (keeps_files_run_jobs js w0
                        (cachedImagePath image (BlurManager.imageHash image))) as Hj;
          destruct (multiprocessing.run_jobs f js w0) as [[[]|e| |] wj]; try discriminate
      end.
      injection Hret as _ <-. simpl in Hj |- *. apply Hj.
      rewrite lookup_insert_eq. eauto.
  - destruct (verifyWallpaperCache_no_source image (BlurManager.imageHash image) w HW)
      as (w' & E & _). rewrite E in Hret. discriminate.
Qed.

Lemma configure_all_leaves_wallpapers (frames : list Z)
    (outputConfigs : list (string * OutputCfg)) (outs outs1 : gmap string Output)
    (w w1 : World) :
  BlurManager.configure_all frames outputConfigs outs w = (Returns outs1, w1) ->
  forall name outputCfg image,
    In (name, outputCfg) outputConfigs -> image_of outputCfg = Some image ->
    is_Some (w_fs w1 !! image)
    /\ is_Some (w_fs w1 !! cachedImagePath image (BlurManager.imageHash image)).
Proof.
  revert outs w. induction outputConfigs as [|[n c] rest IH]; intros outs w Hret.
  - intros ? ? ? [].
  - simpl in Hret. unfold bind in Hret.
    destruct (BlurManager.configure frames outs n c w) as [[outs0|e| |] w0] eqn:E0;
      try discriminate.
    intros name cfg image [Hin|Hin] Hi.
    + injection Hin as -> ->.
      destruct (configure_leaves_wallpaper _ _ _ _ _ _ _ _ Hi E0) as [H1 H2].
      pose proof (keeps_files_configure_all frames rest outs0 w0) as Hkeep.
      rewrite Hret in Hkeep. simpl in Hkeep. split; apply Hkeep; assumption.
    + exact (IH _ _ Hret name cfg image Hin Hi).
Qed.

(** X9: the constructor removes no file, however it ends; and when it
    returns, every configured wallpaper and the cached copy of each are
    files on disk. *)
Theorem init_leaves_wallpapers (outputConfigs : list (string * OutputCfg))
    (blurStrength animationDuration : Z) (w : World) :
  (forall path,
     is_Some (w_fs w !! path) ->
     is_Some (w_fs (snd (BlurManager.__init__ outputConfigs blurStrength animationDuration w))
              !! path))
  /\ (forall self w1,
        BlurManager.__init__ outputConfigs blurStrength animationDuration w
        = (Returns self, w1) ->
        forall name outputCfg image,
          In (name, outputCfg) outputConfigs -> image_of outputCfg = Some image ->
          is_Some (w_fs w1 !! image)
          /\ is_Some (w_fs w1 !! cachedImagePath image (BlurManager.imageHash image))).
Proof.
  split.
  - intros path H.
    assert (Hk : keeps_files (BlurManager.__init__ outputConfigs blurStrength animationDuration)).
    { unfold BlurManager.__init__.
      apply keeps_files_bind; [apply keeps_files_emit | intros _].
      apply keeps_files_bind; [apply keeps_files_configure_all | intros; apply keeps_files_ret]. }
    exact (Hk w path H).
  - intros self w1 Hinit. unfold BlurManager.__init__, bind, emit, ret in Hinit.
    destruct (BlurManager.configure_all _ _ _ _) as [[outs|e| |] w0] eqn:E0; try discriminate.
    injection Hinit as _ <-.
    exact (configure_all_leaves_wallpapers _ _ _ _ _ _ E0).
Qed.

End files.

Lemma init_leaves_wallpapers_witness :
  exists self w1,
    @BlurManager.__init__ ref_paths sample_configs 20 4 (sample_world fs_fresh failing_tool)
    = (Returns self, w1)
    /\ is_Some (w_fs w1 !! wall)
    /\ is_Some (w_fs w1 !! @cachedImagePath ref_paths wall (BlurManager.imageHash wall)).
Proof.
  assert (E : exists self w1,
             @BlurManager.__init__ ref_paths sample_configs 20 4
               (sample_world fs_fresh failing_tool) = (Returns self, w1)).
  { eexists. eexists. vm_compute. reflexivity. }
  destruct E as (self & w1 & E). exists self, w1. split; [exact E|].
  destruct (@init_leaves_wallpapers ref_paths sample_configs 20 4
              (sample_world fs_fresh failing_tool)) as [_ H].
  exact (H self w1 E "eDP-1" (mkOutputCfg (Some wall) "nearest" "center" "fill") wall
           (or_introl eq_refl) eq_refl).
Defined.

(** ** The frames on disk *)


Lemma genBlurredImage_convert (inputPath outputPath : string) (blurLevel : Z) (w : World) :
  w_convert (snd (genBlurredImage inputPath outputPath blurLevel w)) = w_convert w.
Proof.
  destruct (acts_then _ _ w (acts_genBlurredImage inputPath outputPath blurLevel))
    as (fs & cache & es & -> & _). reflexivity.
Qed.




Lemma keeps_files_run_batch (batch : list (string * string * Z)) :
  keeps_files (multiprocessing.run_batch BlurManager.run_job batch).
Proof.
  intros w path H. revert H.
  apply (run_batch_preserves BlurManager.run_job
           (fun w w' => is_Some (w_fs w !! path) -> is_Some (w_fs w' !! path))); auto.
  intros [[i o] l] w0 _. apply keeps_files_genBlurredImage.
Qed.

Lemma keeps_files_run_batches (batches : list (list (string * string * Z))) :
  keeps_files (multiprocessing.run_batches BlurManager.run_job batches).
Proof.
  intros w path H. revert H.
  apply (run_batches_preserves BlurManager.run_job
           (fun w w' => is_Some (w_fs w !! path) -> is_Some (w_fs w' !! path))); auto.
  intros [[i o] l] w0 _. apply keeps_files_genBlurredImage.
Qed.

(** with a filter that writes its output, and the inputs in place, a
    batch returns and the output of each of its jobs is on disk *)
Lemma run_batch_writes (batch : list (string * string * Z)) (w : World)
    (run : option string -> Z -> Z * option string) :
  w_convert w = Installed run ->
  writes_its_output run ->
  (forall inputPath outputPath blurLevel,
     In (inputPath, outputPath, blurLevel) batch -> is_Some (w_fs w !! inputPath)) ->
  fst (multiprocessing.run_batch BlurManager.run_job batch w) = Returns tt
  /\ forall inputPath outputPath blurLevel,
       In (inputPath, outputPath, blurLevel) batch ->
       is_Some (w_fs (snd (multiprocessing.run_batch BlurManager.run_job batch w))
                !! outputPath).
Proof.
  revert w. induction batch as [|[[i o] l] rest IH]; intros w Hc Hrun Hin.
  - split; [reflexivity | intros ? ? ? []].
  - cbn [multiprocessing.run_batch BlurManager.run_job]. unfold bind.
    pose proof (genBlurredImage_convert i o l w) as Hc1.
    pose proof (keeps_files_genBlurredImage i o l w) as Hk1.
    destruct (genBlurredImage_installed i o l w run Hc) as (fs & E & Hfs).
    rewrite E in Hc1, Hk1 |- *. cbn [fst snd] in Hc1, Hk1.
    assert (Ho : is_Some (fs !! o)).
    { rewrite Hfs. destruct (Hin i o l (or_introl eq_refl)) as [f Hf]. rewrite Hf. simpl.
      specialize (Hrun (f_data f) l).
      destruct (snd (run (Some (f_data f)) l)); [|congruence].
      rewrite lookup_insert_eq. eauto. }
    match goal with
    | |- context [multiprocessing.run_batch BlurManager.run_job rest ?w0] =>
        pose proof (keeps_files_run_batch rest w0 o Ho) as Hkeep;
        destruct (IH w0 (eq_trans Hc1 Hc) Hrun) as [Hr Hout];
          [intros i' o' l' Hin'; apply Hk1; exact (Hin i' o' l' (or_intror Hin'))|];
        destruct (multiprocessing.run_batch BlurManager.run_job rest w0) as [rs w2]
    end.
    cbn [fst snd] in Hr, Hout, Hkeep |- *. split; [exact Hr|].
    intros i' o' l' [Heq|Hin'].
    + injection Heq as <- <- <-. exact Hkeep.
    + eapply Hout. exact Hin'.
Qed.

Lemma run_batches_writes (batches : list (list (string * string * Z))) (w : World)
    (run : option string -> Z -> Z * option string) :
  w_convert w = Installed run ->
  writes_its_output run ->
  (forall inputPath outputPath blurLevel,
     In (inputPath, outputPath, blurLevel) (concat batches) ->
     is_Some (w_fs w !! inputPath)) ->
  fst (multiprocessing.run_batches BlurManager.run_job batches w) = Returns tt
  /\ forall inputPath outputPath blurLevel,
       In (inputPath, outputPath, blurLevel) (concat batches) ->
       is_Some (w_fs (snd (multiprocessing.run_batches BlurManager.run_job batches w))
                !! outputPath).
Proof.
  revert w. induction batches as [|batch rest IH]; intros w Hc Hrun Hin.
  - split; [reflexivity | intros ? ? ? []].
  - cbn [multiprocessing.run_batches].
    destruct (run_batch_writes batch w run Hc Hrun) as [Hr1 Hout1].
    { intros i o l Hj. apply (Hin i o l). simpl. apply in_or_app. auto. }
    assert (Hc1 : w_convert (snd (multiprocessing.run_batch BlurManager.run_job batch w))
                  = w_convert w).
    { apply (run_batch_preserves BlurManager.run_job
               (fun w w' => w_convert w' = w_convert w)); [auto | congruence |].
      intros [[i o] l] w0 _. apply genBlurredImage_convert. }
    pose proof (keeps_files_run_batch batch w) as Hk1.
    destruct (multiprocessing.run_batch BlurManager.run_job batch w) as [r w1].
    cbn [fst snd] in Hr1, Hout1, Hc1, Hk1. subst r.
    destruct (IH w1 (eq_trans Hc1 Hc) Hrun) as [Hr Hout].
    { intros i o l Hj. apply Hk1. apply (Hin i o l). simpl. apply in_or_app. auto. }
    pose proof (keeps_files_run_batches rest w1) as Hk.
    destruct (multiprocessing.run_batches BlurManager.run_job rest w1) as [rs w2].
    cbn [fst snd] in Hr, Hout, Hk |- *. subst rs. split; [reflexivity|].
    intros i o l Hj. simpl in Hj. apply in_app_or in Hj. destruct Hj as [Hj|Hj].
    + apply Hk. eapply Hout1. exact Hj.
    + eapply Hout. exact Hj.
Qed.

(** with a filter that writes its output, and the inputs in place, the
    pool returns and the output of every job is on disk *)
Lemma run_jobs_writes (jobs : list (string * string * Z)) (w : World)
    (run : option string -> Z -> Z * option string) :
  w_convert w = Installed run ->
  writes_its_output run ->
  (forall inputPath outputPath blurLevel,
     In (inputPath, outputPath, blurLevel) jobs -> is_Some (w_fs w !! inputPath)) ->
  fst (multiprocessing.run_jobs BlurManager.run_job jobs w) = Returns tt
  /\ forall inputPath outputPath blurLevel,
       In (inputPath, outputPath, blurLevel) jobs ->
       is_Some (w_fs (snd (multiprocessing.run_jobs BlurManager.run_job jobs w)) !! outputPath).
Proof.
  destruct (run_jobs_batches BlurManager.run_job jobs w) as (batches & -> & <- & _).
  apply run_batches_writes.
Qed.

Section frames.
Context `{P : Paths}.

Lemma verifyWallpaperCache_convert (W h : string) (w : World) :
  w_convert (snd (verifyWallpaperCache W h w)) = w_convert w.
Proof.
  destruct (acts_then _ _ w (acts_verifyWallpaperCache W h)) as (fs & cache & es & -> & _).
  reflexivity.
Qed.

Lemma configure_convert (frames : list Z) (outs : gmap string Output) (name : string)
    (outputCfg : OutputCfg) (w : World) :
  w_convert (snd (BlurManager.configure frames outs name outputCfg w)) = w_convert w.
Proof.
  destruct (acts_then _ _ w (acts_configure frames outs name outputCfg))
    as (fs & cache & es & -> & _). reflexivity.
Qed.

(** a body that returns with such a filter has found the wallpaper cached,
    or its frames are all on disk *)
Lemma configure_frames (frames : list Z) (outs outs1 : gmap string Output)
    (name image : string) (outputCfg : OutputCfg) (w w1 : World)
    (run : option string -> Z -> Z * option string) :
  w_convert w = Installed run ->
  writes_its_output run ->
  image_of outputCfg = Some image ->
  BlurManager.configure frames outs name outputCfg w = (Returns outs1, w1) ->
  exists es,
    w_trace w1 = (w_trace w ++ es)%list
    /\ (In (Log INFO ("wallpaper " ++ image ++ " is cached as "
                      ++ cachedImagePath image (BlurManager.imageHash image))) es
        \/ forall frame, In frame frames ->
             is_Some (w_fs w1 !! framePath (BlurManager.imageHash image) frame)).
Proof.
  intros Hc Hrun Himg Hret.
  rewrite (configure_image _ _ _ image) in Hret by exact Himg.
  destruct (verifyWallpaperCache image (BlurManager.imageHash image) w)
    as [[[|]|e| |] wv] eqn:Ev; try discriminate.
  - apply verifyWallpaperCache_true in Ev. destruct Ev as (cache & ->).
    injection Hret as _ <-.
    eexists. split; [simpl; rewrite <- app_assoc; reflexivity|].
    left. simpl. auto.
  - apply verifyWallpaperCache_false in Ev. destruct Ev as (f & cache & _ & ->).
    match type of Hret with
    | context [multiprocessing.run_jobs ?f ?js ?w0] =>
        destruct (acts_emits _ _ (acts_run_jobs setup_event f js
                    ltac:(intros [[? ?] ?]; apply acts_genBlurredImage)) w0)
          as (esj & Ej & _);
        destruct (run_jobs_writes js w0 run Hc Hrun) as [_ Hw];
          [intros i' o' l' Hj; unfold BlurManager.jobs in Hj; apply in_map_iff in Hj;
           destruct Hj as (fr & [= <- _ _] & _); simpl; rewrite lookup_insert_eq; eauto|];
        destruct (multiprocessing.run_jobs f js w0) as [[[]|e| |] wj]; try discriminate
    end.
    injection Hret as _ <-.
    eexists. split.
    { simpl. simpl in Ej. rewrite Ej. simpl. rewrite <- !app_assoc. reflexivity. }
    right. intros frame Hin. simpl in Hw |- *.
    apply (Hw (cachedImagePath image (BlurManager.imageHash image))
              (framePath (BlurManager.imageHash image) frame) frame).
    unfold BlurManager.jobs. apply in_map_iff. exists frame. auto.
Qed.

Lemma configure_all_frames (frames : list Z) (outputConfigs : list (string * OutputCfg))
    (outs outs1 : gmap string Output) (w w1 : World)
    (run : option string -> Z -> Z * option string) :
  w_convert w = Installed run ->
  writes_its_output run ->
  BlurManager.configure_all frames outputConfigs outs w = (Returns outs1, w1) ->
  exists es,
    w_trace w1 = (w_trace w ++ es)%list
    /\ forall name outputCfg image,
         In (name, outputCfg) outputConfigs -> image_of outputCfg = Some image ->
         In (Log INFO ("wallpaper " ++ image ++ " is cached as "
                       ++ cachedImagePath image (BlurManager.imageHash image))) es
         \/ forall frame, In frame frames ->
              is_Some (w_fs w1 !! framePath (BlurManager.imageHash image) frame).
Proof.
  revert outs w. induction outputConfigs as [|[n c] rest IH]; intros outs w Hc Hrun Hret.
  - injection Hret as _ <-. exists []. rewrite app_nil_r. split; [reflexivity|].
    intros ? ? ? [].
  - simpl in Hret. unfold bind in Hret.
    pose proof (configure_convert frames outs n c w) as Hc0.
    destruct (BlurManager.configure frames outs n c w) as [[outs0|e| |] w0] eqn:E0;
      try discriminate.
    simpl in Hc0. rewrite Hc in Hc0.
    destruct (IH _ _ Hc0 Hrun Hret) as (es1 & Et1 & H1).
    pose proof (keeps_files_configure_all frames rest outs0 w0) as Hkeep.
    rewrite Hret in Hkeep. simpl in Hkeep.
    destruct (acts_emits _ _ (acts_configure frames outs n c) w) as (es0 & Et0 & _).
    rewrite E0 in Et0. simpl in Et0.
    exists (es0 ++ es1)%list. rewrite Et1, Et0, app_assoc. split; [reflexivity|].
    intros name cfg image [Hin|Hin] Hi.
    + injection Hin as -> ->.
      destruct (configure_frames _ _ _ _ _ _ _ _ run Hc Hrun Hi E0) as (es0' & Et0' & H0).
      rewrite Et0 in Et0'. apply app_inv_head in Et0'. subst es0'.
      destruct H0 as [H0|H0]; [left; apply in_or_app; auto | right].
      intros frame Hf. apply Hkeep. apply H0. exact Hf.
    + destruct (H1 name cfg image Hin Hi) as [H|H]; [left; apply in_or_app; auto | right; exact H].
Qed.

(** X10: with a filter that is installed and writes its output whenever
    its input exists, a constructor that returns leaves, for every configured output
    with a wallpaper, either the log line that its wallpaper was found
    cached, or every frame of its schedule as a file on disk. *)
Theorem init_frames_on_disk (outputConfigs : list (string * OutputCfg))
    (blurStrength animationDuration : Z) (self : BlurManager.t) (w w1 : World)
    (run : option string -> Z -> Z * option string) :
  w_convert w = Installed run ->
  writes_its_output run ->
  BlurManager.__init__ outputConfigs blurStrength animationDuration w = (Returns self, w1) ->
  forall name outputCfg image,
    In (name, outputCfg) outputConfigs -> image_of outputCfg = Some image ->
    In (Log INFO ("wallpaper " ++ image ++ " is cached as "
                  ++ cachedImagePath image (BlurManager.imageHash image))) (w_trace w1)
    \/ forall frame, In frame (animationFrames blurStrength animationDuration) ->
         is_Some (w_fs w1 !! framePath (BlurManager.imageHash image) frame).
Proof.
  intros Hc Hrun Hinit. unfold BlurManager.__init__, bind, emit, ret in Hinit.
  destruct (BlurManager.configure_all _ _ _ _) as [[outs|e| |] w0] eqn:E0; try discriminate.
  injection Hinit as _ <-.
  destruct (configure_all_frames _ _ _ _ (add_event Connect w) _ run Hc Hrun E0)
    as (es & Et & H).
  intros name cfg image Hin Hi.
  destruct (H name cfg image Hin Hi) as [Hl|Hf]; [left | right; exact Hf].
  rewrite Et. apply in_or_app. right. exact Hl.
Qed.

End frames.

Lemma init_frames_on_disk_witness :
  exists self w1,
    @BlurManager.__init__ ref_paths sample_configs 20 4 (sample_world fs_fresh blur_tool)
    = (Returns self, w1)
    /\ is_Some (w_fs w1 !! @framePath ref_paths (BlurManager.imageHash wall) 15).
Proof.
  assert (E : exists self w1,
             @BlurManager.__init__ ref_paths sample_configs 20 4
               (sample_world fs_fresh blur_tool) = (Returns self, w1)
             /\ ~ In (Log INFO ("wallpaper " ++ wall ++ " is cached as "
                                ++ @cachedImagePath ref_paths wall (BlurManager.imageHash wall)))
                     (w_trace w1)).
  { eexists. eexists. split; [vm_compute; reflexivity|].
    vm_compute. intros H.
    repeat match type of H with _ \/ _ => destruct H as [H|H]; [discriminate|] end.
    exact H. }
  destruct E as (self & w1 & E & Hno). exists self, w1. split; [exact E|].
  destruct (@init_frames_on_disk ref_paths sample_configs 20 4 self
              (sample_world fs_fresh blur_tool) w1 _ eq_refl
              ltac:(intros bytes blurLevel; discriminate) E
              "eDP-1" (mkOutputCfg (Some wall) "nearest" "center" "fill") wall
              (or_introl eq_refl) eq_refl) as [Hl|Hf].
  - contradiction.
  - apply Hf. vm_compute. auto.
Defined.

(** ** What the constructor leaves in the cache *)

Section cache_kept.
Context `{P : Paths}.









End cache_kept.

(** ** A wallpaper shared by two outputs *)

Section shared.
Context `{P : Paths}.




End shared.

(** ** A duration of zero or less *)

Section no_duration.
Context `{P : Paths}.

(** X12: with a duration of zero or less nothing is divided and the
    schedule is empty: for an output whose wallpaper file exists the body
    of the loop returns, whether or not the filter is installed, with an
    [Output] that has no frame; the filter is not run and no error is
    logged. *)
Theorem no_duration_no_filter (blurStrength animationDuration : Z)
    (outs : gmap string Output) (name image : string) (outputCfg : OutputCfg)
    (w : World) (f : File) :
  animationDuration <= 0 ->
  image_of outputCfg = Some image ->
  w_fs w !! image = Some f ->
  exists w1 es,
    BlurManager.configure (animationFrames blurStrength animationDuration)
      outs name outputCfg w
    = (Returns (<[name := mkOutput name (cachedImagePath image (BlurManager.imageHash image)) []
                             (mkSettings (c_filter outputCfg) (c_anchor outputCfg)
                                         (c_scaling_mode outputCfg))]> outs), w1)
    /\ w_trace w1 = (w_trace w ++ es)%list
    /\ Forall (fun e => (forall inputPath blurLevel outputPath,
                           e <> Run inputPath blurLevel outputPath)
                        /\ (forall msg, e <> Log ERROR msg)) es.
Proof.
  intros Hd Himg HW. rewrite (animationFrames_empty _ _ Hd).
  rewrite (configure_image _ _ _ image) by exact Himg.
  destruct (verifyWallpaperCache_returns image (BlurManager.imageHash image) w f HW)
    as [(cache & E & _)|(cache & E)]; rewrite E.
  - eexists _, _. split; [reflexivity|]. split.
    + simpl. rewrite <- app_assoc. reflexivity.
    + repeat first [ apply Forall_nil | apply Forall_app; split | apply Forall_cons; split
                   | split; intros; discriminate ].
  - simpl. eexists _, _. split; [reflexivity|]. split.
    + unfold after_miss. simpl. rewrite <- !app_assoc. reflexivity.
    + repeat first [ apply Forall_nil | apply Forall_app; split | apply Forall_cons; split
                   | split; intros; discriminate ].
Qed.

End no_duration.

Lemma no_duration_no_filter_witness :
  exists w1 es,
    fst (@BlurManager.configure ref_paths (animationFrames 20 0) ∅ "eDP-1"
           (mkOutputCfg (Some wall) "nearest" "center" "fill") (sample_world fs_fresh Missing))
    = Returns {[ "eDP-1" := mkOutput "eDP-1" wall_cached []
                              (mkSettings "nearest" "center" "fill") ]}
    /\ w_trace w1 = es.
Proof.
  destruct (@no_duration_no_filter ref_paths 20 0 ∅ "eDP-1" wall
              (mkOutputCfg (Some wall) "nearest" "center" "fill")
              (sample_world fs_fresh Missing) (mkFile "AAAA" 100)
              ltac:(lia) eq_refl eq_refl) as (w1 & es & E & Et & _).
  exists w1, es. split; [rewrite E; reflexivity | exact Et].
Defined.


(** ** The identity as a file name *)

Lemma le_bytes_range (n : nat) (x : Z) :
  Forall (fun b => 0 <= b < 256) (hashlib.le_bytes n x).
Proof.
  revert x. induction n as [|n IH]; intros x; simpl; constructor; [|apply IH].
  change 255 with (Z.ones 8). rewrite Z.land_ones by lia.
  apply Z.mod_pos_bound. lia.
Qed.

Lemma length_le_bytes (n : nat) (x : Z) : List.length (hashlib.le_bytes n x) = n.
Proof. revert x. induction n as [|n IH]; intros x; simpl; [reflexivity | f_equal; apply IH]. Qed.

Lemma hexdigit_is_hex (d : Z) : 0 <= d < 16 -> is_hex_digit (hashlib.hexdigit d) = true.
Proof.
  intros Hd.
  assert (H : d = 0 \/ d = 1 \/ d = 2 \/ d = 3 \/ d = 4 \/ d = 5 \/ d = 6 \/ d = 7 \/ d = 8
              \/ d = 9 \/ d = 10 \/ d = 11 \/ d = 12 \/ d = 13 \/ d = 14 \/ d = 15) by lia.
  repeat destruct H as [->|H]; try subst d; reflexivity.
Qed.

Lemma hex_format (bs : list Z) :
  Forall (fun b => 0 <= b < 256) bs ->
  String.length (hashlib.hex bs) = (2 * List.length bs)%nat
  /\ all_hex (hashlib.hex bs) = true.
Proof.
  induction 1 as [|b bs Hb _ [IH1 IH2]]; [split; reflexivity|].
  simpl. split; [rewrite IH1; lia|].
  rewrite !hexdigit_is_hex, IH2; [reflexivity | |].
  - apply Z.mod_pos_bound. lia.
  - split; [apply Z.div_pos; lia | apply Z.div_lt_upper_bound; lia].
Qed.

(** X13: the identity of a wallpaper is a name of 32 lowercase
    hexadecimal digits, whatever the text of its path. *)
Theorem imageHash_format (image : string) :
  String.length (BlurManager.imageHash image) = 32%nat
  /\ all_hex (BlurManager.imageHash image) = true.
Proof.
  unfold BlurManager.imageHash, hashlib.md5_hexdigest, hashlib.md5.
  set (st := hashlib.blocks _ _ _).
  destruct (hex_format (hashlib.le_bytes 4 (hashlib.sA st) ++ hashlib.le_bytes 4 (hashlib.sB st)
                        ++ hashlib.le_bytes 4 (hashlib.sC st)
                        ++ hashlib.le_bytes 4 (hashlib.sD st))%list) as [H1 H2].
  - repeat (apply Forall_app; split); apply le_bytes_range.
  - split; [|exact H2]. rewrite H1, !length_app, !length_le_bytes. reflexivity.
Qed.

(** ** No memory of the last animation *)

Lemma listen_repeat (self : BlurManager.t) (ev : i3event) (t : tree) (n : nat) (w : World) :
  ev ∈ w_subs w ->
  resolves t ->
  BlurManager.listen self (repeat (ev, t) n) (set_tree t w)
  = (Returns tt, add_events (concat (repeat (handler_events self t) n)) (set_tree t w)).
Proof.
  intros Hev Hres. revert w Hev. induction n as [|n IH]; intros w Hev.
  - simpl. unfold ret. rewrite add_events_nil. reflexivity.
  - cbn [repeat concat]. rewrite listen_subscribed by exact Hev.
    unfold bind.
    pose proof (handleBlur_events self (set_tree t (set_tree t w))) as Hes.
    pose proof (handleBlur_resolved self (set_tree t (set_tree t w)) Hres) as Hr.
    destruct (BlurManager.handleBlur self (set_tree t (set_tree t w))) as [r w1].
    simpl in Hes, Hr. subst r w1.
    change (set_tree t (set_tree t w)) with (set_tree t w).
    change (add_events (handler_events self t) (set_tree t w))
      with (set_tree t (add_events (handler_events self t) w)).
    rewrite (IH (add_events (handler_events self t) w)) by exact Hev.
    change (set_tree t (add_events (handler_events self t) w))
      with (add_events (handler_events self t) (set_tree t w)).
    rewrite add_events_app. reflexivity.
Qed.

(** X14: the handler keeps no memory of what it last did: what it does for
    an event depends on the manager and on the tree of that event alone,
    so [n] events of a subscribed kind that find the same tree replay the
    same animation [n] times, with nothing left out as redundant. *)
Theorem handleBlur_no_memory (self : BlurManager.t) (ev : i3event) (t : tree) (n : nat)
    (w : World) :
  ev ∈ w_subs w ->
  resolves t ->
  (forall w', snd (BlurManager.handleBlur self (set_tree t w'))
              = add_events (handler_events self t) (set_tree t w'))
  /\ BlurManager.listen self (repeat (ev, t) n) (set_tree t w)
     = (Returns tt, add_events (concat (repeat (handler_events self t) n)) (set_tree t w)).
Proof.
  intros Hev Hres. split.
  - intros w'. exact (handleBlur_events self (set_tree t w')).
  - exact (listen_repeat self ev t n w Hev Hres).
Qed.

Lemma handleBlur_no_memory_witness :
  BlurManager.listen sample_manager [(WINDOW_NEW, tree_window); (WINDOW_NEW, tree_window)]
    (listening_world tree_window)
  = (Returns tt,
     add_events
       [GetTree; Invoke eDP m_blur;
        SetBackground "eDP-1" "/cache/f1"; SetBackground "eDP-1" "/cache/f2";
        GetTree; Invoke eDP m_blur;
        SetBackground "eDP-1" "/cache/f1"; SetBackground "eDP-1" "/cache/f2"]
       (listening_world tree_window)).
Proof.
  refine (proj2 (handleBlur_no_memory sample_manager WINDOW_NEW tree_window 2
                   (listening_world tree_window) _ _)).
  - vm_compute. repeat constructor.
  - exists win12, ws7, "eDP-1". split; reflexivity.
Defined.
(* ===================================================================== *)
(** * Part IV: the order of start-up                                      *)
(* ===================================================================== *)


Section startup.
Context `{P : Paths}.


End startup.


(** C8 as stated fails: the wallpaper is cached, but the strength is now
    30 and no frame of the new schedule exists; the constructor returns,
    the subscriptions are made and the loop hands the first event to the
    handler, which shows the frames; no copy was made and the filter, which
    works, was never run: none of the four frame files has been generated,
    before the subscription or after. *)
Lemma subscribed_without_frames :
  let run := @BlurManager.startup ref_paths sample_configs 30 4
               [(WINDOW_NEW, tree_window)] (sample_world fs_cached blur_tool) in
  fst run = Returns tt
  /\ animationFrames 30 4 = [7; 14; 21; 28]
  /\ In (On WINDOW_NEW) (w_trace (snd run))
  /\ In Main (w_trace (snd run))
  /\ In (SetBackground "eDP-1" (@framePath ref_paths wall_hash 7)) (w_trace (snd run))
  /\ Forall (fun e => is_generation e = false) (w_trace (snd run))
  /\ Forall (fun frame => w_fs (snd run) !! @framePath ref_paths wall_hash frame = None)
       (animationFrames 30 4).
Proof.
  intros run. subst run.
  split; [vm_compute; reflexivity|].
  split; [reflexivity|].
  split; [vm_compute; repeat first [left; reflexivity | right]|].
  split; [vm_compute; repeat first [left; reflexivity | right]|].
  split; [vm_compute; repeat first [left; reflexivity | right]|].
  split; vm_compute; repeat constructor.
Qed.
